(** * GradientM chatbot backend (server.js): lead intake, lead listing,
      chat relay and lead statistics.

    The four Express handlers of [server.js] are embedded as total
    functions.  What a handler reads from its surroundings (the parsed
    request body, the clock, the lead file, the two hosted providers) is an
    explicit argument; what it leaves behind (the lead file, the outbound
    calls) is part of its result. *)

From Stdlib Require Import ZArith Ascii String List Bool Lia.
From Stdlib Require Import DecimalString DecimalZ FinFun.
From stdpp Require Import base option list gmap strings.

Local Open Scope string_scope.
Local Open Scope Z_scope.

(** ** Strings

    A JavaScript string is a sequence of UTF-16 code units.  A character of
    a Rocq [string] stands for one code unit in the range U+0000..U+00FF
    (Basic Latin and Latin-1 Supplement). *)

Module JsString.

Definition code (c : ascii) : N := N_of_ascii c.

(** WhiteSpace and LineTerminator of ECMAScript, which [trim] strips and
    the regular-expression class [\s] matches: TAB, LF, VT, FF, CR, SP
    and NBSP are the ones below U+0100. *)
Definition is_ws (c : ascii) : bool :=
  let n := code c in
  ((9 <=? n) && (n <=? 13) || (n =? 32) || (n =? 160))%N.

(** [String.prototype.toLowerCase], one code unit at a time: A-Z and the
    Latin-1 capitals U+00C0..U+00DE (but the sign U+00D7) move up by 32. *)
Definition lower_char (c : ascii) : ascii :=
  let n := code c in
  if ((65 <=? n) && (n <=? 90)
      || (192 <=? n) && (n <=? 222) && negb (n =? 215))%N
  then ascii_of_N (n + 32) else c.

Fixpoint toLowerCase (s : string) : string :=
  match s with
  | EmptyString => EmptyString
  | String c r => String (lower_char c) (toLowerCase r)
  end.

Fixpoint trimStart (s : string) : string :=
  match s with
  | EmptyString => EmptyString
  | String c r => if is_ws c then trimStart r else s
  end.

(** [trimEnd] keeps a character when it is not white space or when
    something is left after it. *)
Fixpoint trimEnd (s : string) : string :=
  match s with
  | EmptyString => EmptyString
  | String c r =>
      match trimEnd r with
      | EmptyString => if is_ws c then EmptyString else String c EmptyString
      | r' => String c r'
      end
  end.

Definition trim (s : string) : string := trimEnd (trimStart s).

Definition is_empty (s : string) : bool :=
  match s with EmptyString => true | _ => false end.

(** [Array.prototype.join] on strings already converted. *)
Fixpoint join (sep : string) (l : list string) : string :=
  match l with
  | [] => ""
  | [x] => x
  | x :: r => x ++ sep ++ join sep r
  end.

(** [String.prototype.includes]. *)
Fixpoint includes (s needle : string) : bool :=
  String.prefix needle s
  || match s with
     | EmptyString => false
     | String _ r => includes r needle
     end.

(** [Number.prototype.toString] at an integral value. *)
Definition of_Z (z : Z) : string := NilEmpty.string_of_int (Z.to_int z).

End JsString.

(** ** JavaScript values

    What [express.json()], [JSON.parse] and the providers' response bodies
    hand to the handlers.  [JUndefined] is what reading an absent property
    gives.  A number is kept as the integer that its rendering
    ([Number.prototype.toString]) spells, which up to 2^53 is the number
    itself; this covers the integral numbers that are rendered in plain
    decimal digits (of magnitude below 10^21).  The handlers look at a
    number only through ToBoolean and ToString. *)

#[local] Set Warnings "-register-all".

Inductive jsval :=
| JUndefined
| JNull
| JBool (b : bool)
| JNum (z : Z)
| JStr (s : string)
| JArr (items : list jsval)
| JObj (props : list (string * jsval)).

(** ToBoolean: what [!v], [v ? a : b], [v || d] and [v && w] look at. *)
Definition truthy (v : jsval) : bool :=
  match v with
  | JUndefined | JNull => false
  | JBool b => b
  | JNum z => negb (z =? 0)
  | JStr s => negb (JsString.is_empty s)
  | JArr _ | JObj _ => true
  end.

(** [v || d] *)
Definition or_else (v d : jsval) : jsval := if truthy v then v else d.

(** The object has a property of its own under the name. *)
Definition has_own (k : string) (props : list (string * jsval)) : bool :=
  existsb (fun p => String.eqb k (fst p)) props.

(** ToString; [None] is the TypeError it throws.  An array joins its items
    with a comma, an absent or null item giving the empty string.  An
    object of a JSON text converts through [Object.prototype.toString],
    unless it has a [toString] of its own: that one is no function, and
    [valueOf] gives no primitive, so the conversion throws. *)
Fixpoint ToString (v : jsval) : option string :=
  match v with
  | JUndefined => Some "undefined"
  | JNull => Some "null"
  | JBool true => Some "true"
  | JBool false => Some "false"
  | JNum z => Some (JsString.of_Z z)
  | JStr s => Some s
  | JArr items =>
      JsString.join ","
        <$> (fix items_to_strings (l : list jsval) : option (list string) :=
               match l with
               | [] => Some []
               | x :: r =>
                   s ← match x with
                       | JUndefined | JNull => Some ""
                       | _ => ToString x
                       end;
                   rest ← items_to_strings r;
                   Some (s :: rest)
               end) items
  | JObj props =>
      if has_own "toString" props then None else Some "[object Object]"
  end.

(** What [Array.prototype.join] makes of one item. *)
Definition join_item (v : jsval) : option string :=
  match v with JUndefined | JNull => Some "" | _ => ToString v end.

Fixpoint assoc (k : string) (props : list (string * jsval)) : jsval :=
  match props with
  | [] => JUndefined
  | (k', v) :: r => if String.eqb k k' then v else assoc k r
  end.

(** [v.k], for a property name [k] that no built-in prototype defines (the
    handlers read no other).  [None] is the TypeError of reading a property
    of [undefined] or [null]. *)
Definition member (v : jsval) (k : string) : option jsval :=
  match v with
  | JUndefined | JNull => None
  | JObj props => Some (assoc k props)
  | JArr items =>
      Some (if String.eqb k "length" then JNum (Z.of_nat (length items)) else JUndefined)
  | JStr s =>
      Some (if String.eqb k "length" then JNum (Z.of_nat (String.length s)) else JUndefined)
  | JBool _ | JNum _ => Some JUndefined
  end.

(** [v[0]] *)
Definition item0 (v : jsval) : option jsval :=
  match v with
  | JUndefined | JNull => None
  | JArr items => Some (match items with x :: _ => x | [] => JUndefined end)
  | JStr s => Some (match s with String c _ => JStr (String c "") | EmptyString => JUndefined end)
  | JObj props => Some (assoc "0" props)
  | JBool _ | JNum _ => Some JUndefined
  end.

(** [v.trim()]: only a string has the method; on anything else the call
    throws a TypeError, here [None]. *)
Definition call_trim (v : jsval) : option string :=
  match v with JStr s => Some (JsString.trim s) | _ => None end.

(** A template literal's [${x}] on a configuration entry, which is a string
    or undefined. *)
Definition interpolate (x : option string) : string :=
  match x with Some s => s | None => "undefined" end.

(** ** Regular expressions

    The patterns of the source use literals, classes, sequencing and [+]
    only, so [test] is language membership; it is decided with
    derivatives. *)

Module Regex.

Inductive regex :=
| Void
| Eps
| Class (p : ascii -> bool)
| Seq (r1 r2 : regex)
| Alt (r1 r2 : regex)
| Star (r : regex).

Definition Chr (c : ascii) : regex := Class (Ascii.eqb c).
Definition Plus (r : regex) : regex := Seq r (Star r).

Fixpoint nullable (r : regex) : bool :=
  match r with
  | Void => false
  | Eps => true
  | Class _ => false
  | Seq r1 r2 => nullable r1 && nullable r2
  | Alt r1 r2 => nullable r1 || nullable r2
  | Star _ => true
  end.

Fixpoint deriv (c : ascii) (r : regex) : regex :=
  match r with
  | Void | Eps => Void
  | Class p => if p c then Eps else Void
  | Seq r1 r2 =>
      if nullable r1
      then Alt (Seq (deriv c r1) r2) (deriv c r2)
      else Seq (deriv c r1) r2
  | Alt r1 r2 => Alt (deriv c r1) (deriv c r2)
  | Star r1 => Seq (deriv c r1) (Star r1)
  end.

(** The whole of [s] is in the language of [r]: [/^r$/.test(s)]. *)
Fixpoint matches (r : regex) (s : string) : bool :=
  match s with
  | EmptyString => nullable r
  | String c s' => matches (deriv c r) s'
  end.

(** [RegExp.prototype.test] converts its argument with ToString; [None]
    when that conversion throws. *)
Definition test (r : regex) (v : jsval) : option bool :=
  matches r <$> ToString v.

(** The strings a pattern denotes, against which [matches] is checked. *)
Inductive lang : regex -> string -> Prop :=
| lang_eps : lang Eps ""
| lang_class p c : p c = true -> lang (Class p) (String c "")
| lang_seq r1 r2 s1 s2 :
    lang r1 s1 -> lang r2 s2 -> lang (Seq r1 r2) (s1 ++ s2)
| lang_alt_l r1 r2 s : lang r1 s -> lang (Alt r1 r2) s
| lang_alt_r r1 r2 s : lang r2 s -> lang (Alt r1 r2) s
| lang_star_nil r : lang (Star r) ""
| lang_star_cons r s1 s2 :
    lang r s1 -> lang (Star r) s2 -> lang (Star r) (s1 ++ s2).

(** Every character of the string is in the class. *)
Fixpoint all_in (p : ascii -> bool) (s : string) : bool :=
  match s with
  | EmptyString => true
  | String c r => p c && all_in p r
  end.

End Regex.

(** [[^\s@]] *)
Definition not_space_nor_at (c : ascii) : bool :=
  negb (JsString.is_ws c) && negb (Ascii.eqb c "@").

(** [/^[^\s@]+@[^\s@]+\.[^\s@]+$/] *)
Definition emailRegex : Regex.regex :=
  Regex.Seq (Regex.Plus (Regex.Class not_space_nor_at))
    (Regex.Seq (Regex.Chr "@")
       (Regex.Seq (Regex.Plus (Regex.Class not_space_nor_at))
          (Regex.Seq (Regex.Chr ".")
             (Regex.Plus (Regex.Class not_space_nor_at))))).

(** ** The lead file

    [data/leads.json], seen through [fs.readFile] followed by [JSON.parse]:
    the file is missing, cannot be read, holds text that is no JSON, or
    holds the text of a JSON value.  [JSON.stringify] and [JSON.parse] are
    inverse on the values the handlers write, so a file that was written is
    kept as the value it parses to. *)

Inductive leads_file :=
| FileAbsent
| FileUnreadable
| FileUnparsable
| FileJSON (v : jsval).

(** [JSON.parse(await fs.readFile(leadsFile, 'utf8'))]; [None] when either
    step throws. *)
Definition read_json (f : leads_file) : option jsval :=
  match f with
  | FileJSON v => Some v
  | FileAbsent | FileUnreadable | FileUnparsable => None
  end.

(** The leads an administrator is shown for a file that holds an array,
    and none for a file that cannot be read. *)
Definition stored_leads (f : leads_file) : list jsval :=
  match read_json f with
  | Some (JArr l) => l
  | _ => []
  end.

(** ** POST /api/submit-lead *)

Module Body.
(** The seven properties line 34 takes out of [req.body]. *)
Record t := mk {
  name : jsval;
  phone : jsval;
  email : jsval;
  company : jsval;
  message : jsval;
  requirement : jsval;
  type : jsval
}.
End Body.

Module Lead.
(** [leadData], lines 53-64. *)
Record t := mk {
  id : string;
  name : string;
  phone : string;
  email : string;
  company : string;
  message : string;
  requirement : string;
  type : jsval;
  submittedAt : string;
  ip : string
}.

(** The record as [JSON.stringify] writes it and [JSON.parse] reads it
    back. *)
Definition to_json (l : t) : jsval :=
  JObj [ ("id", JStr (id l));
         ("name", JStr (name l));
         ("phone", JStr (phone l));
         ("email", JStr (email l));
         ("company", JStr (company l));
         ("message", JStr (message l));
         ("requirement", JStr (requirement l));
         ("type", type l);
         ("submittedAt", JStr (submittedAt l));
         ("ip", JStr (ip l)) ].
End Lead.

Module Intake.

(** What one request finds around it: the clock read by [Date.now()] and
    by [new Date().toISOString()], [req.ip], and whether [fs.mkdir] and
    [fs.writeFile] go through.  A write that does not go through is one
    that is refused before the file is opened (no permission, a read-only
    file system) and so leaves the file as it was; a write that breaks off
    after the file was opened, and leaves it cut short, is not covered. *)
Record world := mkWorld {
  Date_now : Z;
  toISOString : string;
  req_ip : option string;
  mkdir_ok : bool;
  writeFile_ok : bool
}.

Record response := mkResponse {
  status : nat;
  success : bool;
  message : string;
  leadId : option string
}.

Definition missing_fields : response :=
  mkResponse 400 false
    "Missing required fields: name, phone, email, and company are required" None.

Definition invalid_email : response :=
  mkResponse 400 false "Invalid email format" None.

Definition internal_error : response :=
  mkResponse 500 false "Internal server error" None.

Definition submitted (id : string) : response :=
  mkResponse 200 true "Lead submitted successfully" (Some id).

(** [v ? v.trim() : d] *)
Definition trim_or (v : jsval) (d : string) : option string :=
  if truthy v then call_trim v else Some d.

(** Lines 53-64.  [None] when one of the [trim] calls throws. *)
Definition leadData (w : world) (b : Body.t) : option Lead.t :=
  name ← call_trim (Body.name b);
  phone ← call_trim (Body.phone b);
  email ← call_trim (Body.email b);
  company ← call_trim (Body.company b);
  message ← trim_or (Body.message b) "No additional message provided";
  requirement ← trim_or (Body.requirement b) "General inquiry";
  Some (Lead.mk
          (JsString.of_Z (Date_now w))
          name phone (JsString.toLowerCase email) company
          message requirement
          (or_else (Body.type b) (JStr "contact_form"))
          (toISOString w)
          (match req_ip w with
           | Some a => if JsString.is_empty a then "unknown" else a
           | None => "unknown"
           end)).

(** [leads.push(leadData)]: only an array has the method. *)
Definition push (leads item : jsval) : option jsval :=
  match leads with
  | JArr l => Some (JArr (l ++ [item]))
  | _ => None
  end.

(** Lines 53-81, the part of the [try] block after validation.  [None]
    when an exception reaches the [catch] of line 93. *)
Definition save (w : world) (f : leads_file) (b : Body.t)
  : option (Lead.t * leads_file) :=
  lead ← leadData w b;
  _ ← guard (mkdir_ok w = true);
  let leads := default (JArr []) (read_json f) in
  leads' ← push leads (Lead.to_json lead);
  _ ← guard (writeFile_ok w = true);
  Some (lead, FileJSON leads').

(** The handler, lines 32-97: the response and the lead file it leaves. *)
Definition submit_lead (w : world) (f : leads_file) (b : Body.t)
  : response * leads_file :=
  if negb (truthy (Body.name b)) || negb (truthy (Body.phone b))
     || negb (truthy (Body.email b)) || negb (truthy (Body.company b))
  then (missing_fields, f)
  else match Regex.test emailRegex (Body.email b) with
       | None => (internal_error, f)
       | Some false => (invalid_email, f)
       | Some true =>
           match save w f b with
           | Some (lead, f') => (submitted (Lead.id lead), f')
           | None => (internal_error, f)
           end
       end.

(** Requests handled one after the other, each with its own world; the
    responses, oldest first, and the file at the end. *)
Fixpoint submit_all (f : leads_file) (reqs : list (world * Body.t))
  : list response * leads_file :=
  match reqs with
  | [] => ([], f)
  | (w, b) :: rest =>
      let '(r, f') := submit_lead w f b in
      let '(rs, f'') := submit_all f' rest in
      (r :: rs, f'')
  end.

(** A field that holds a non-empty string. *)
Definition nonempty_text (v : jsval) : bool :=
  match v with JStr s => negb (JsString.is_empty s) | _ => false end.

(** A field that holds a string, or is absent, null, false or zero. *)
Definition text_or_falsy (v : jsval) : bool :=
  match v with JStr _ => true | _ => negb (truthy v) end.

(** The four required fields are non-empty strings and the e-mail address
    has the required shape. *)
Definition valid (b : Body.t) : bool :=
  nonempty_text (Body.name b) && nonempty_text (Body.phone b)
  && nonempty_text (Body.email b) && nonempty_text (Body.company b)
  && match Regex.test emailRegex (Body.email b) with
     | Some matched => matched
     | None => false
     end.

(** The directory can be made, the file can be written, and what the
    file holds, when it can be read, is an array. *)
Definition storage_ok (w : world) (f : leads_file) : bool :=
  mkdir_ok w && writeFile_ok w
  && match read_json f with
     | Some (JArr _) | None => true
     | Some _ => false
     end.

(** The [id] of a record of the file. *)
Definition lead_id (lead : jsval) : option jsval := member lead "id".

End Intake.

(** ** GET /api/leads *)

Module Listing.

(** Lines 100-109: status and body. *)
Definition list_leads (f : leads_file) : nat * jsval :=
  match read_json f with
  | Some leads => (200%nat, leads)
  | None => (200%nat, JArr [])
  end.

End Listing.

(** ** GET /api/stats *)

Module Stats.

(** What the accumulator of the [reduce] holds under a key: a count, or
    the string that [+ 1] makes when the value found was no number. *)
Inductive tally :=
| Count (n : nat)
| Text (s : string).

Record t := mk {
  totalLeads : nat;
  todayLeads : nat;
  serviceRequests : gmap string tally
}.

Definition zero : t := mk 0 0 ∅.

(** The calendar: [new Date().toDateString()] and
    [new Date(v).toDateString()]. *)
Record calendar := mkCalendar {
  today : string;
  toDateString : jsval -> string
}.

(** The accumulator starts as the literal [{}], whose prototype is
    [Object.prototype]: reading a key it does not own finds what the
    prototype has under that name.  Its methods convert to their source
    text; [__proto__] is an accessor that reads as the prototype object
    and ignores the assignment of a primitive. *)
Inductive inherited :=
| Method (text : string)
| ProtoAccessor.

Definition Object_prototype_methods : list string :=
  [ "__defineGetter__"; "__defineSetter__"; "hasOwnProperty";
    "__lookupGetter__"; "__lookupSetter__"; "isPrototypeOf";
    "propertyIsEnumerable"; "toString"; "valueOf"; "toLocaleString" ].

Definition Object_prototype (k : string) : option inherited :=
  if String.eqb k "constructor"
  then Some (Method "function Object() { [native code] }")
  else if existsb (String.eqb k) Object_prototype_methods
  then Some (Method ("function " ++ k ++ "() { [native code] }"))
  else if String.eqb k "__proto__" then Some ProtoAccessor
  else None.

(** [acc[service] = (acc[service] || 0) + 1] *)
Definition bump (acc : gmap string tally) (service : string)
  : gmap string tally :=
  match acc !! service with
  | Some (Count n) => <[service := Count (S n)]> acc
  | Some (Text s) =>
      if JsString.is_empty s
      then <[service := Count 1]> acc
      else <[service := Text (s ++ "1")]> acc
  | None =>
      match Object_prototype service with
      | Some (Method text) => <[service := Text (text ++ "1")]> acc
      | Some ProtoAccessor => acc
      | None => <[service := Count 1]> acc
      end
  end.

(** The callback of the [reduce], lines 213-217. *)
Definition count_lead (acc : gmap string tally) (lead : jsval)
  : option (gmap string tally) :=
  requirement ← member lead "requirement";
  let service := or_else requirement (JStr "General Inquiry") in
  key ← ToString service;
  Some (bump acc key).

Fixpoint reduce (acc : gmap string tally) (leads : list jsval)
  : option (gmap string tally) :=
  match leads with
  | [] => Some acc
  | lead :: rest => acc' ← count_lead acc lead; reduce acc' rest
  end.

(** The callback of the [filter], lines 208-212.  [new Date(v)] converts
    an object or array [v] to a primitive first, which throws when ToString
    does. *)
Definition is_today (c : calendar) (lead : jsval) : option bool :=
  submittedAt ← member lead "submittedAt";
  _ ← ToString submittedAt;
  Some (String.eqb (today c) (toDateString c submittedAt)).

Fixpoint filter_today (c : calendar) (leads : list jsval)
  : option (list jsval) :=
  match leads with
  | [] => Some []
  | lead :: rest =>
      keep ← is_today c lead;
      kept ← filter_today c rest;
      Some (if keep : bool then lead :: kept else kept)
  end.

(** Lines 206-218 on the parsed file.  Only an array has [filter] and
    [reduce]; [None] when an exception reaches the [catch]. *)
Definition computeStats (c : calendar) (parsed : jsval) : option t :=
  match parsed with
  | JArr leads =>
      todays ← filter_today c leads;
      services ← reduce ∅ leads;
      Some (mk (length leads) (length todays) services)
  | _ => None
  end.

(** The handler, lines 200-224: status and body. *)
Definition stats (c : calendar) (f : leads_file) : nat * t :=
  match read_json f ≫= computeStats c with
  | Some st => (200%nat, st)
  | None => (200%nat, zero)
  end.

(** The map of the specification: every requirement value with the number
    of leads that carry it, a lead without one counting for "General
    Inquiry". *)
Definition service_of (requirement : option string) : string :=
  match requirement with
  | Some r => if JsString.is_empty r then "General Inquiry" else r
  | None => "General Inquiry"
  end.

Definition occurrences (k : string) (l : list string) : nat :=
  length (filter (λ x, x = k) l).

Definition count_map (services : list string) : gmap string nat :=
  list_to_map ((λ k, (k, occurrences k services)) <$> remove_dups services).

(** The lead has the given requirement, or none. *)
Definition carries (lead : jsval) (requirement : option string) : Prop :=
  member lead "requirement"
  = Some (match requirement with Some r => JStr r | None => JUndefined end).

(** The [submittedAt] of the lead, or its absence, is something that
    [new Date] takes without throwing. *)
Definition dated (lead : jsval) : Prop :=
  exists v, member lead "submittedAt" = Some v /\ is_Some (ToString v).

(** A lead record of the file that holds the given requirement and
    nothing else. *)
Definition lead_with (requirement : option string) : jsval :=
  match requirement with
  | Some r => JObj [("requirement", JStr r)]
  | None => JObj []
  end.

End Stats.

(** ** POST /api/chat *)

Module Chat.

(** [AZURE_CONFIG], lines 12-19: each entry is an environment variable,
    a string or undefined. *)
Record config := mkConfig {
  endpoint : option string;
  apiKey : option string;
  deploymentName : option string;
  searchEndpoint : option string;
  searchKey : option string;
  searchIndex : option string
}.

Definition configured (x : option string) : bool :=
  match x with Some s => negb (JsString.is_empty s) | None => false end.

(** The two outbound calls: the search query of lines 129-142 and the
    completion request of lines 170-186. *)
Inductive outbound :=
| Search (url : string) (search : string) (top : Z) (select : string)
    (api_key : option string)
| Completion (url : string) (system user : string) (max_tokens : Z)
    (api_key : option string).

(** [axios.post] rejects (network error, status outside 2xx, timeout)
    or resolves to a response with its parsed [data]. *)
Inductive http_result :=
| Rejected (message : string)
| Fulfilled (data : jsval).

Definition provider := outbound -> http_result.

Inductive body :=
| Reply (response : jsval)
| Error (error : string).

Definition nl : string := String (ascii_of_nat 10) "".

Definition apology : string :=
  "I apologize, but I'm having trouble connecting to our AI service. Please try again or contact our support team directly.".

(** Lines 144-148 on [searchResponse.data]: the text for [searchResults],
    or [None] when an exception reaches the [catch] of line 149.  A
    number or boolean has no [length], so the test fails; a non-empty
    string passes it and has no [map]; an object fails the test or has
    no callable [map], and either way [searchResults] stays empty.
    [join] converts every content with ToString, which may throw. *)
Definition search_text (data : jsval) : option string :=
  value ← member data "value";
  match value with
  | JArr [] => Some ""
  | JArr results =>
      contents ← mapM (λ result, member result "content") results;
      texts ← mapM join_item contents;
      Some (JsString.join (nl ++ nl) texts)
  | JStr text => if JsString.is_empty text then Some "" else None
  | JObj _ => None
  | JUndefined | JNull | JBool _ | JNum _ => Some ""
  end.

Definition search_call (cfg : config) (message : string) : outbound :=
  Search (interpolate (searchEndpoint cfg) ++ "/indexes/"
            ++ interpolate (searchIndex cfg)
            ++ "/docs/search?api-version=2023-11-01")
    message 3 "content" (searchKey cfg).

(** Lines 126-152: [searchResults] and the calls made. *)
Definition search (cfg : config) (post : provider) (message : string)
  : string * list outbound :=
  if configured (searchEndpoint cfg) && configured (searchKey cfg)
  then
    let call := search_call cfg message in
    match post call with
    | Fulfilled data => (default "" (search_text data), [call])
    | Rejected _ => ("", [call])
    end
  else ("", []).

(** Lines 155-167. *)
Definition systemMessage (searchResults : string) : string :=
  "You are a helpful AI assistant for GradientM, a leading technology consulting firm specializing in digital transformation. " ++ nl
  ++ "        " ++ nl
  ++ "GradientM Services:" ++ nl
  ++ "        - Cloud & Infrastructure (AWS, Azure, GCP)" ++ nl
  ++ "        - Digital Transformation" ++ nl
  ++ "        - Data Analytics & AI" ++ nl
  ++ "        - Cybersecurity" ++ nl
  ++ "        - Software Development" ++ nl
  ++ "        - IT Consulting" ++ nl
  ++ "        " ++ nl
  ++ "        "
  ++ (if JsString.is_empty searchResults then ""
      else "Additional Context: " ++ searchResults) ++ nl
  ++ "        " ++ nl
  ++ "        Provide helpful, professional responses about GradientM's services. If asked about services not offered, politely redirect to available services.".

Definition completion_call (cfg : config) (system user : string) : outbound :=
  Completion (interpolate (endpoint cfg) ++ "/openai/deployments/"
                ++ interpolate (deploymentName cfg)
                ++ "/chat/completions?api-version=2023-12-01-preview")
    system user 300 (apiKey cfg).

(** [response.data.choices[0].message.content], line 188. *)
Definition aiResponse (data : jsval) : option jsval :=
  choices ← member data "choices";
  first ← item0 choices;
  message ← member first "message";
  member message "content".

(** Lines 169-196: the completion call and the response made of it. *)
Definition complete (cfg : config) (post : provider) (system user : string)
  : (nat * body) * list outbound :=
  let call := completion_call cfg system user in
  match post call with
  | Fulfilled data =>
      match aiResponse data with
      | Some text => ((200%nat, Reply text), [call])
      | None => ((500%nat, Error apology), [call])
      end
  | Rejected _ => ((500%nat, Error apology), [call])
  end.

(** The handler, lines 112-197: status, body and the outbound calls in
    the order they were made.  Only a string has [toLowerCase]; on any
    other truthy message the call throws into the [catch] of line 191. *)
Definition chat (cfg : config) (post : provider) (message : jsval)
  : (nat * body) * list outbound :=
  if negb (truthy message)
  then ((400%nat, Error "Message is required"), [])
  else
    match message with
    | JStr text =>
        if String.eqb (JsString.trim (JsString.toLowerCase text)) "hi"
        then ((200%nat, Reply (JStr "gpt-40")), [])
        else
          let '(searchResults, calls) := search cfg post text in
          let '(res, calls') :=
            complete cfg post (systemMessage searchResults) text in
          (res, (calls ++ calls')%list)
    | _ => ((500%nat, Error apology), [])
    end.

(** The Search Provider is not configured, or its call fails, or it
    answers with no result. *)
Definition search_unavailable (cfg : config) (post : provider)
    (message : string) : Prop :=
  configured (searchEndpoint cfg) && configured (searchKey cfg) = false
  \/ (exists e, post (search_call cfg message) = Rejected e)
  \/ (exists data, post (search_call cfg message) = Fulfilled data
                   /\ member data "value" = Some (JArr [])).

End Chat.

(** ** Scenarios of the specification *)

Module Scenario.

(** A request at clock reading 1700000000000 with no observed address
    and working storage. *)
Definition world : Intake.world :=
  Intake.mkWorld 1700000000000 "2023-11-14T22:13:20.000Z" None true true.

(** [{name:"A", phone:"123", email:"a@b.com", company:"X"}] *)
Definition body : Body.t :=
  Body.mk (JStr "A") (JStr "123") (JStr "a@b.com") (JStr "X")
    JUndefined JUndefined JUndefined.

Definition with_name (v : jsval) : Body.t :=
  Body.mk v (JStr "123") (JStr "a@b.com") (JStr "X")
    JUndefined JUndefined JUndefined.

Definition with_email (v : jsval) : Body.t :=
  Body.mk (JStr "A") (JStr "123") v (JStr "X")
    JUndefined JUndefined JUndefined.

Definition with_optional (message requirement type : jsval) : Body.t :=
  Body.mk (JStr "A") (JStr "123") (JStr "a@b.com") (JStr "X")
    message requirement type.

(** The record the first scenario stores. *)
Definition lead : Lead.t :=
  Lead.mk "1700000000000" "A" "123" "a@b.com" "X"
    "No additional message provided" "General inquiry"
    (JStr "contact_form") "2023-11-14T22:13:20.000Z" "unknown".

End Scenario.

(** ** Closed forms used to state what the handlers compute *)

Module Shape.

(** No character of the string is white space. *)
Definition no_space (s : string) : bool :=
  Regex.all_in (fun c => negb (JsString.is_ws c)) s.

(** [t] after [+ 1] was applied [n] times to it as a string. *)
Fixpoint ones_after (t : string) (n : nat) : string :=
  match n with
  | O => t
  | S n' => ones_after t n' ++ "1"
  end.

(** What the accumulator of the statistics holds under a key that was
    counted [n] times. *)
Definition entry (k : string) (n : nat) : option Stats.tally :=
  match n with
  | O => None
  | S _ =>
      match Stats.Object_prototype k with
      | None => Some (Stats.Count n)
      | Some (Stats.Method text) => Some (Stats.Text (ones_after text n))
      | Some Stats.ProtoAccessor => None
      end
  end.

(** The key under which the statistics count a lead that was stored with
    the given requirement. *)
Definition stats_key (requirement : string) : string :=
  if JsString.is_empty requirement then "General Inquiry" else requirement.

(** The calls the chat handler makes for a message it relays. *)
Definition relay_calls (cfg : Chat.config) (post : Chat.provider)
    (m : string) : list Chat.outbound :=
  ((if Chat.configured (Chat.searchEndpoint cfg)
       && Chat.configured (Chat.searchKey cfg)
    then [Chat.search_call cfg m] else [])
   ++ [Chat.completion_call cfg
         (Chat.systemMessage (fst (Chat.search cfg post m))) m])%list.

(** The search result has the given text as its [content], whatever else
    it holds. *)
Definition has_content (result : jsval) (content : string) : Prop :=
  member result "content" = Some (JStr content).

End Shape.

(** ** The intake in its two steps

    The handler awaits [fs.readFile] and [fs.writeFile]: between the two,
    other requests may run.  The first step is everything up to the array
    that is about to be written; the second is the write and the answer,
    on the file as it is by then. *)

Module Phases.

(** What a request holds once it has read the file: the lead it built and
    the array it pushed the lead onto. *)
Record pending := mkPending {
  lead : Lead.t;
  leads : jsval
}.

(** Lines 33-80: the answer, when there is one before the write, or what
    is about to be written. *)
Definition read_phase (w : Intake.world) (f : leads_file) (b : Body.t)
  : Intake.response + pending :=
  if negb (truthy (Body.name b)) || negb (truthy (Body.phone b))
     || negb (truthy (Body.email b)) || negb (truthy (Body.company b))
  then inl Intake.missing_fields
  else match Regex.test emailRegex (Body.email b) with
       | None => inl Intake.internal_error
       | Some false => inl Intake.invalid_email
       | Some true =>
           match
             (lead ← Intake.leadData w b;
              _ ← guard (Intake.mkdir_ok w = true);
              leads' ← Intake.push (default (JArr []) (read_json f))
                         (Lead.to_json lead);
              Some (mkPending lead leads'))
           with
           | Some p => inr p
           | None => inl Intake.internal_error
           end
       end.

(** Lines 81-96: the write, on the file as it is now, and the answer. *)
Definition write_phase (w : Intake.world) (p : pending) (now : leads_file)
  : Intake.response * leads_file :=
  if Intake.writeFile_ok w
  then (Intake.submitted (Lead.id (lead p)), FileJSON (leads p))
  else (Intake.internal_error, now).

End Phases.

(** * Properties *)

(** ** Strings and numbers *)

Section StringFacts.
Import JsString.

Lemma of_Z_inj (a b : Z) : of_Z a = of_Z b -> a = b.
Proof.
  unfold of_Z. intros E.
  apply (f_equal NilEmpty.int_of_string) in E.
  rewrite !NilEmpty.isi in E.
  injection E as E. now apply DecimalZ.to_int_inj.
Qed.

Lemma of_Z_nonempty (z : Z) : of_Z z <> "".
Proof.
  unfold of_Z. intros E.
  apply (f_equal NilEmpty.int_of_string) in E.
  rewrite NilEmpty.isi in E. cbn in E.
  injection E as E.
  assert (z = 0) as ->
    by now rewrite <- (DecimalZ.of_to z), E.
  discriminate E.
Qed.

Lemma is_ws_lower_char (c : ascii) : is_ws (lower_char c) = is_ws c.
Proof. destruct c as [[] [] [] [] [] [] [] []]; vm_compute; reflexivity. Qed.

Lemma toLowerCase_empty (s : string) : toLowerCase s = "" <-> s = "".
Proof. destruct s; cbn; split; congruence. Qed.

Lemma trimStart_toLowerCase (s : string) :
  trimStart (toLowerCase s) = toLowerCase (trimStart s).
Proof.
  induction s as [|c r IH]; cbn; [reflexivity|].
  rewrite is_ws_lower_char. destruct (is_ws c); [exact IH | reflexivity].
Qed.

Lemma trimEnd_toLowerCase (s : string) :
  trimEnd (toLowerCase s) = toLowerCase (trimEnd s).
Proof.
  induction s as [|c r IH]; cbn; [reflexivity|].
  rewrite IH, is_ws_lower_char.
  destruct (trimEnd r); cbn; [destruct (is_ws c)|]; reflexivity.
Qed.

(** Lower-casing and trimming commute: no letter becomes white space and
    white space has no case. *)
Lemma trim_toLowerCase (s : string) :
  trim (toLowerCase s) = toLowerCase (trim s).
Proof. unfold trim. now rewrite trimStart_toLowerCase, trimEnd_toLowerCase. Qed.

Lemma is_empty_true (s : string) : is_empty s = true <-> s = "".
Proof. destruct s; cbn; split; congruence. Qed.

Lemma is_empty_false (s : string) : is_empty s = false <-> s <> "".
Proof. destruct s; cbn; split; congruence. Qed.

Example trim_examples :
  trim "  a b  " = "a b" /\ trim "   " = "" /\ trim (" Hi" ++ Chat.nl) = "Hi".
Proof. repeat split; reflexivity. Qed.

Example toLowerCase_examples :
  toLowerCase "A.B@Example.COM" = "a.b@example.com" /\ toLowerCase " Hi " = " hi ".
Proof. split; reflexivity. Qed.

Example of_Z_examples :
  of_Z 1700000000000 = "1700000000000" /\ of_Z 0 = "0" /\ of_Z (-5) = "-5".
Proof. repeat split; reflexivity. Qed.

End StringFacts.

Lemma truthy_JStr (s : string) : truthy (JStr s) = true <-> s <> "".
Proof.
  cbn. rewrite negb_true_iff. apply is_empty_false.
Qed.


Example ToString_examples :
  ToString (JNum 5) = Some "5"
  /\ ToString (JArr [JStr "a@b.co"]) = Some "a@b.co"
  /\ ToString (JArr [JNum 1; JNull; JStr "x"]) = Some "1,,x"
  /\ ToString (JObj [("a", JNum 1)]) = Some "[object Object]"
  /\ ToString (JObj [("toString", JNum 1)]) = None
  /\ ToString (JArr [JStr "a"; JObj [("toString", JNum 1)]]) = None.
Proof. repeat split; reflexivity. Qed.

(** ** The matcher decides the language of the pattern *)

Section RegexFacts.
Import Regex.

Lemma append_nil_l (s : string) : "" ++ s = s.
Proof. reflexivity. Qed.

Lemma append_cons (c : ascii) (s t : string) :
  String c s ++ t = String c (s ++ t).
Proof. reflexivity. Qed.

Local Ltac push_append :=
  repeat (rewrite append_cons in * || rewrite append_nil_l in * ).

Lemma nullable_lang (r : regex) : nullable r = true <-> lang r "".
Proof.
  induction r as [| |p|r1 IH1 r2 IH2|r1 IH1 r2 IH2|r IH]; cbn.
  - split; [discriminate | inversion 1].
  - split; [constructor | reflexivity].
  - split; [discriminate | inversion 1].
  - rewrite andb_true_iff, IH1, IH2. split.
    + intros [H1 H2]. apply (lang_seq r1 r2 "" "" H1 H2).
    + inversion 1 as [| |? ? s1 s2 H1 H2 E| | | |]; subst.
      destruct s1; push_append; [|discriminate]. subst. auto.
  - rewrite orb_true_iff, IH1, IH2. split.
    + intros [H|H]; [now apply lang_alt_l | now apply lang_alt_r].
    + inversion 1; subst; auto.
  - split; [constructor | reflexivity].
Qed.

Lemma deriv_sound (c : ascii) (r : regex) :
  forall s, lang (deriv c r) s -> lang r (String c s).
Proof.
  induction r as [| |p|r1 IH1 r2 IH2|r1 IH1 r2 IH2|r IH]; cbn; intros s H.
  - inversion H.
  - inversion H.
  - destruct (p c) eqn:E; inversion H; subst. now constructor.
  - assert (forall t, lang (Seq (deriv c r1) r2) t -> lang (Seq r1 r2) (String c t))
      as Hseq.
    { intros t Ht. inversion Ht as [| |? ? s1 s2 H1 H2| | | |]; subst.
      apply (lang_seq r1 r2 (String c s1) s2); auto. }
    destruct (nullable r1) eqn:N; [|now apply Hseq].
    inversion H; subst; [now apply Hseq|].
    apply nullable_lang in N.
    apply (lang_seq r1 r2 "" (String c s)); auto.
  - inversion H; subst; [apply lang_alt_l | apply lang_alt_r]; auto.
  - inversion H as [| |? ? s1 s2 H1 H2| | | |]; subst.
    apply (lang_star_cons r (String c s1) s2); auto.
Qed.

Lemma deriv_complete (c : ascii) (r : regex) (t : string) :
  lang r t -> forall s, t = String c s -> lang (deriv c r) s.
Proof.
  induction 1 as [|p c' Hp|r1 r2 s1 s2 H1 IH1 H2 IH2|r1 r2 t H IH|r1 r2 t H IH
                  |r|r s1 s2 H1 IH1 H2 IH2]; intros s E; cbn.
  - discriminate.
  - injection E as -> <-. rewrite Hp. constructor.
  - destruct s1 as [|c1 s1']; push_append.
    + apply nullable_lang in H1. rewrite H1.
      apply lang_alt_r. now apply IH2.
    + injection E as -> <-.
      assert (lang (Seq (deriv c r1) r2) (s1' ++ s2)) as Hs
        by (constructor; auto).
      destruct (nullable r1); [now apply lang_alt_l | exact Hs].
  - apply lang_alt_l. now apply IH.
  - apply lang_alt_r. now apply IH.
  - discriminate.
  - destruct s1 as [|c1 s1']; push_append.
    + now apply IH2.
    + injection E as -> <-. constructor; auto.
Qed.

(** [matches] answers [true] on the strings of the language and on no
    other. *)
Lemma matches_lang (s : string) : forall r, matches r s = true <-> lang r s.
Proof.
  induction s as [|c s IH]; intros r; cbn.
  - apply nullable_lang.
  - rewrite IH. split; [apply deriv_sound|].
    intros H. now apply (deriv_complete c r (String c s)).
Qed.

Lemma lang_star_class (p : ascii -> bool) (r : regex) (s : string) :
  lang r s -> r = Star (Class p) -> all_in p s = true.
Proof.
  induction 1 as [| | | | | |r s1 s2 H1 _ H2 IH2]; intros E; try discriminate.
  - reflexivity.
  - injection E as ->. inversion H1; subst. push_append. cbn.
    rewrite IH2 by reflexivity. now rewrite andb_true_r.
Qed.

Lemma all_in_star_class (p : ascii -> bool) (s : string) :
  all_in p s = true -> lang (Star (Class p)) s.
Proof.
  induction s as [|c s IH]; cbn; [constructor|].
  rewrite andb_true_iff. intros [Hc Hs].
  apply (lang_star_cons (Class p) (String c "") s); [now constructor | auto].
Qed.

(** [[p]+]: a non-empty string of characters of the class. *)
Lemma lang_plus_class (p : ascii -> bool) (s : string) :
  lang (Plus (Class p)) s <-> s <> "" /\ all_in p s = true.
Proof.
  unfold Plus. split.
  - inversion 1 as [| |? ? s1 s2 H1 H2| | | |]; subst.
    inversion H1; subst. push_append. cbn. split; [discriminate|].
    rewrite (lang_star_class p _ s2 H2 eq_refl). now rewrite andb_true_r.
  - intros [Hne Hs]. destruct s as [|c s]; [contradiction|].
    cbn in Hs. apply andb_true_iff in Hs as [Hc Hs].
    apply (lang_seq (Class p) (Star (Class p)) (String c "") s);
      [now constructor | now apply all_in_star_class].
Qed.

Lemma lang_chr (c : ascii) (s : string) :
  lang (Chr c) s <-> s = String c "".
Proof.
  unfold Chr. split.
  - inversion 1 as [|? c' Hc| | | | |]; subst.
    apply Ascii.eqb_eq in Hc. now subst.
  - intros ->. constructor. apply Ascii.eqb_refl.
Qed.

(** The pattern of line 45 accepts exactly the strings [a@b.c] whose three
    parts are non-empty and free of white space and of [@]. *)
Theorem emailRegex_shape (s : string) :
  Regex.matches emailRegex s = true <->
  exists a b c,
    s = a ++ "@" ++ b ++ "." ++ c
    /\ (a <> "" /\ all_in not_space_nor_at a = true)
    /\ (b <> "" /\ all_in not_space_nor_at b = true)
    /\ (c <> "" /\ all_in not_space_nor_at c = true).
Proof.
  rewrite matches_lang. unfold emailRegex. split.
  - intros H.
    inversion H as [| |? ? a s1 Ha H1| | | |]; subst.
    inversion H1 as [| |? ? at1 s2 Hat H2| | | |]; subst.
    inversion H2 as [| |? ? b s3 Hb H3| | | |]; subst.
    inversion H3 as [| |? ? dot c Hdot Hc| | | |]; subst.
    apply lang_chr in Hat, Hdot. subst.
    apply lang_plus_class in Ha, Hb, Hc.
    exists a, b, c. auto.
  - intros (a & b & c & -> & Ha & Hb & Hc).
    apply lang_plus_class in Ha, Hb, Hc.
    repeat (constructor; try assumption); now apply lang_chr.
Qed.

Example emailRegex_examples :
  map (Regex.matches emailRegex)
    ["a@b.com"; "A.b@c.d.e"; "not-an-email"; "a@b"; "@b.com"; "a@b.com ";
     "a@@b.c"; "a@b."; " "]
  = [true; true; false; false; false; false; false; false; false].
Proof. reflexivity. Qed.

End RegexFacts.

(** ** Lead intake *)

Section IntakeFacts.
Import Intake.

Lemma nonempty_text_inv (v : jsval) :
  nonempty_text v = true -> exists s, v = JStr s /\ s <> "" /\ truthy v = true.
Proof.
  destruct v; cbn; try discriminate. intros H. exists s.
  rewrite negb_true_iff in H. rewrite H. split; [reflexivity|].
  split; [now apply is_empty_false | reflexivity].
Qed.

Lemma text_or_falsy_trim_or (v : jsval) (d : string) :
  text_or_falsy v = true ->
  exists s, trim_or v d = Some s /\ (truthy v = false -> s = d).
Proof.
  unfold trim_or. destruct v; cbn; intros H; try discriminate H;
    try (rewrite negb_true_iff in H; rewrite ?H); eauto.
  destruct (JsString.is_empty s); cbn; eauto.
  eexists; split; [reflexivity | discriminate].
Qed.

(** A submission that passes [valid] gets through both checks of the
    handler. *)
Lemma valid_passes (w : world) (f : leads_file) (b : Body.t) :
  valid b = true ->
  submit_lead w f b =
    match save w f b with
    | Some (lead, f') => (submitted (Lead.id lead), f')
    | None => (internal_error, f)
    end.
Proof.
  unfold valid. rewrite !andb_true_iff. intros [[[[Hn Hp] He] Hc] Hr].
  apply nonempty_text_inv in Hn as (? & _ & _ & Tn).
  apply nonempty_text_inv in Hp as (? & _ & _ & Tp).
  apply nonempty_text_inv in He as (? & _ & _ & Te).
  apply nonempty_text_inv in Hc as (? & _ & _ & Tc).
  unfold submit_lead. rewrite Tn, Tp, Te, Tc. cbn.
  destruct (Regex.test emailRegex (Body.email b)) as [[]|];
    [reflexivity | discriminate Hr | discriminate Hr].
Qed.

(** The record of lines 53-64 is built whenever the fields that are
    trimmed are strings. *)
Lemma leadData_defined (w : world) (b : Body.t) :
  valid b = true ->
  text_or_falsy (Body.message b) = true ->
  text_or_falsy (Body.requirement b) = true ->
  exists lead, leadData w b = Some lead
    /\ (truthy (Body.message b) = false ->
        Lead.message lead = "No additional message provided")
    /\ (truthy (Body.requirement b) = false ->
        Lead.requirement lead = "General inquiry")
    /\ Lead.type lead = or_else (Body.type b) (JStr "contact_form").
Proof.
  intros Hv Hm Hq.
  unfold valid in Hv. rewrite !andb_true_iff in Hv.
  destruct Hv as [[[[Hn Hp] He] Hc] _].
  apply nonempty_text_inv in Hn as (n & En & _).
  apply nonempty_text_inv in Hp as (p & Ep & _).
  apply nonempty_text_inv in He as (e & Ee & _).
  apply nonempty_text_inv in Hc as (c & Ec & _).
  destruct (text_or_falsy_trim_or _ "No additional message provided" Hm)
    as (m & Em & Dm).
  destruct (text_or_falsy_trim_or _ "General inquiry" Hq) as (q & Eq & Dq).
  unfold leadData. rewrite En, Ep, Ee, Ec, Em, Eq. cbn.
  eexists. split; [reflexivity|]. cbn. auto.
Qed.

Lemma leadData_id (w : world) (b : Body.t) (lead : Lead.t) :
  leadData w b = Some lead -> Lead.id lead = JsString.of_Z (Date_now w).
Proof.
  unfold leadData. intros H. simplify_option_eq. reflexivity.
Qed.

(** With working storage the lead that was built is appended to what the
    file held. *)
Lemma save_ok (w : world) (f : leads_file) (b : Body.t) (lead : Lead.t) :
  leadData w b = Some lead -> storage_ok w f = true ->
  save w f b = Some (lead, FileJSON (JArr (stored_leads f ++ [Lead.to_json lead]))).
Proof.
  unfold storage_ok, save, stored_leads. rewrite !andb_true_iff.
  intros -> [[Hm Hw] Hf]. cbn.
  rewrite Hm, Hw.
  destruct (read_json f) as [[]|]; try discriminate; reflexivity.
Qed.

(** Whatever [save] returns is the lead that was built, appended. *)
Lemma save_inv (w : world) (f f' : leads_file) (b : Body.t) (lead : Lead.t) :
  save w f b = Some (lead, f') ->
  leadData w b = Some lead
  /\ f' = FileJSON (JArr (stored_leads f ++ [Lead.to_json lead])).
Proof.
  unfold save, stored_leads. intros H.
  destruct (leadData w b) as [l|]; [|discriminate]. cbn in H.
  destruct (read_json f) as [[]|]; simplify_option_eq; auto.
Qed.

Lemma submit_lead_success_inv (w : world) (f f' : leads_file) (b : Body.t)
    (r : response) :
  submit_lead w f b = (r, f') -> success r = true ->
  exists lead, save w f b = Some (lead, f') /\ r = submitted (Lead.id lead).
Proof.
  unfold submit_lead.
  destruct (_ || _); [intros [= <- <-]; discriminate|].
  destruct (Regex.test emailRegex (Body.email b)) as [[]|];
    [|intros [= <- <-]; discriminate ..].
  destruct (save w f b) as [[lead f1]|]; intros [= <- <-]; [|discriminate].
  eauto.
Qed.

End IntakeFacts.


Section IntakeClaims.
Import Intake.

(** C1, as amended.  A submission whose name, phone, email and company
    are non-empty strings, whose email has the required shape and whose
    message and requirement are strings when they are supplied, handled
    with working storage, appends exactly one lead: the file then holds
    the leads it held, in their order, followed by the new one; the
    response is the success acknowledgment, and its leadId is the
    non-empty id of the lead that was stored. *)
Theorem valid_submission_appends_one_lead
    (w : world) (f : leads_file) (b : Body.t) :
  valid b = true ->
  text_or_falsy (Body.message b) = true ->
  text_or_falsy (Body.requirement b) = true ->
  storage_ok w f = true ->
  exists (lead : Lead.t) (r : response) (f' : leads_file),
    submit_lead w f b = (r, f')
    /\ stored_leads f' = (stored_leads f ++ [Lead.to_json lead])%list
    /\ length (stored_leads f') = S (length (stored_leads f))
    /\ status r = 200%nat /\ success r = true
    /\ leadId r = Some (Lead.id lead)
    /\ Lead.id lead <> ""
    /\ lead_id (Lead.to_json lead) = Some (JStr (Lead.id lead)).
Proof.
  intros Hv Hm Hq Hs.
  destruct (leadData_defined w b Hv Hm Hq) as (lead & Hl & _).
  exists lead, (submitted (Lead.id lead)),
    (FileJSON (JArr (stored_leads f ++ [Lead.to_json lead]))).
  rewrite (valid_passes w f b Hv), (save_ok w f b lead Hl Hs).
  repeat split.
  - unfold stored_leads at 1. cbn. rewrite length_app. cbn. lia.
  - rewrite (leadData_id w b lead Hl). apply of_Z_nonempty.
Qed.

Lemma valid_submission_appends_one_lead_witness :
  exists (lead : Lead.t) (r : response) (f' : leads_file),
    submit_lead Scenario.world FileAbsent Scenario.body = (r, f')
    /\ stored_leads f' = (stored_leads FileAbsent ++ [Lead.to_json lead])%list
    /\ length (stored_leads f') = S (length (stored_leads FileAbsent))
    /\ status r = 200%nat /\ success r = true
    /\ leadId r = Some (Lead.id lead)
    /\ Lead.id lead <> ""
    /\ lead_id (Lead.to_json lead) = Some (JStr (Lead.id lead)).
Proof.
  apply (valid_submission_appends_one_lead Scenario.world FileAbsent Scenario.body);
    reflexivity.
Defined.

(** C1 as stated fails: the four required fields are non-empty strings,
    the email has the required shape and storage works, but [message] is
    the number 5, which has no [trim]; the handler answers 500 and the
    file is left as it was. *)
Lemma numeric_message_is_internal_error :
  let b := Scenario.with_optional (JNum 5) JUndefined JUndefined in
  valid b = true
  /\ storage_ok Scenario.world FileAbsent = true
  /\ submit_lead Scenario.world FileAbsent b = (internal_error, FileAbsent)
  /\ status internal_error = 500%nat.
Proof. repeat split. Qed.

(** The other way to the [catch] of line 93: the write fails. *)
Lemma failed_write_is_internal_error (w : world) (f : leads_file) (b : Body.t) :
  valid b = true -> writeFile_ok w = false ->
  submit_lead w f b = (internal_error, f).
Proof.
  intros Hv Hw. rewrite (valid_passes w f b Hv).
  destruct (save w f b) as [[lead f']|] eqn:E; [|reflexivity].
  unfold save in E. rewrite Hw in E. simplify_option_eq.
Qed.

(** What the check of line 37 does refuse: when one of name, phone, email
    and company is absent or empty as sent, the handler answers 400 with
    the message that names the required fields, and the file is left as it
    was. *)
Lemma missing_required_field_is_refused
    (w : world) (f : leads_file) (b : Body.t) :
  truthy (Body.name b) = false \/ truthy (Body.phone b) = false
  \/ truthy (Body.email b) = false \/ truthy (Body.company b) = false ->
  submit_lead w f b = (missing_fields, f)
  /\ status missing_fields = 400%nat /\ success missing_fields = false
  /\ message missing_fields <> "".
Proof.
  intros H. split; [|repeat split; discriminate].
  unfold submit_lead.
  destruct H as [H | [H | [H | H]]]; rewrite H; cbn;
    rewrite ?orb_true_r; reflexivity.
Qed.

(** C2 fails on the code.  The required fields are checked as they were
    sent and trimmed only afterwards: a name of three spaces, which is
    empty after trimming, passes the check of line 37; the submission is
    answered 200 and a lead whose name is the empty string is written,
    where the claim has a 400 and an unchanged store. *)
Theorem blank_name_is_accepted :
  JsString.trim "   " = ""
  /\ exists lead : Lead.t,
       submit_lead Scenario.world FileAbsent (Scenario.with_name (JStr "   "))
         = (submitted "1700000000000", FileJSON (JArr [Lead.to_json lead]))
       /\ Lead.name lead = ""
       /\ status (submitted "1700000000000") = 200%nat.
Proof.
  split; [reflexivity|].
  eexists. split; [reflexivity|]. split; reflexivity.
Qed.

(** A blank email gets past the check of line 37 and is refused by the
    pattern. *)
Example blank_email_is_refused (w : world) (f : leads_file) :
  submit_lead w f (Scenario.with_email (JStr "  ")) = (invalid_email, f).
Proof. reflexivity. Qed.



(** The malformed addresses the specification names. *)
Example malformed_examples (w : world) (f : leads_file) :
  Forall (fun e => submit_lead w f (Scenario.with_email (JStr e))
                   = (invalid_email, f))
    ["not-an-email"; "a@b"; "@b.com"].
Proof. repeat constructor. Qed.

(** An email that cannot be converted to a string (an object with a
    [toString] property of its own) makes the test of line 46 throw: the
    answer is 500, from the [catch] of line 93, and nothing is written. *)
Lemma unconvertible_email_is_internal_error
    (w : world) (f : leads_file) (b : Body.t) :
  truthy (Body.name b) = true -> truthy (Body.phone b) = true ->
  truthy (Body.email b) = true -> truthy (Body.company b) = true ->
  Regex.test emailRegex (Body.email b) = None ->
  submit_lead w f b = (internal_error, f).
Proof.
  intros Hn Hp He Hc H. unfold submit_lead.
  now rewrite Hn, Hp, He, Hc, H.
Qed.

Example unconvertible_email_example (w : world) (f : leads_file) :
  submit_lead w f (Scenario.with_email (JObj [("toString", JNum 1)]))
  = (internal_error, f).
Proof. reflexivity. Qed.

(** C9.  A valid submission that leaves out message, requirement and
    type builds a lead whose message is "No additional message provided",
    whose requirement is "General inquiry" and whose type is
    "contact_form"; the handler appends that lead to the file, and does
    so whenever storage works (otherwise it answers 500 and writes
    nothing). *)
Theorem omitted_optional_fields_get_defaults
    (w : world) (f : leads_file) (b : Body.t) :
  valid b = true ->
  Body.message b = JUndefined ->
  Body.requirement b = JUndefined ->
  Body.type b = JUndefined ->
  exists lead : Lead.t,
    leadData w b = Some lead
    /\ Lead.message lead = "No additional message provided"
    /\ Lead.requirement lead = "General inquiry"
    /\ Lead.type lead = JStr "contact_form"
    /\ (submit_lead w f b
          = (submitted (Lead.id lead),
             FileJSON (JArr (stored_leads f ++ [Lead.to_json lead])))
        \/ submit_lead w f b = (internal_error, f))
    /\ (storage_ok w f = true ->
        submit_lead w f b
          = (submitted (Lead.id lead),
             FileJSON (JArr (stored_leads f ++ [Lead.to_json lead])))).
Proof.
  intros Hv Hm Hq Ht.
  destruct (leadData_defined w b Hv) as (lead & Hl & Dm & Dq & Dt);
    [now rewrite Hm | now rewrite Hq |].
  exists lead. rewrite Hm in Dm. rewrite Hq in Dq. rewrite Ht in Dt.
  repeat split; auto.
  - rewrite (valid_passes w f b Hv).
    destruct (save w f b) as [[lead' f']|] eqn:E; [left | now right].
    apply save_inv in E as [E ->].
    rewrite Hl in E. now injection E as <-.
  - intros Hs. now rewrite (valid_passes w f b Hv), (save_ok w f b lead Hl Hs).
Qed.

Lemma omitted_optional_fields_get_defaults_witness :
  exists lead : Lead.t,
    leadData Scenario.world Scenario.body = Some lead
    /\ Lead.message lead = "No additional message provided"
    /\ Lead.requirement lead = "General inquiry"
    /\ Lead.type lead = JStr "contact_form"
    /\ (submit_lead Scenario.world FileAbsent Scenario.body
          = (submitted (Lead.id lead),
             FileJSON (JArr (stored_leads FileAbsent ++ [Lead.to_json lead])))
        \/ submit_lead Scenario.world FileAbsent Scenario.body
           = (internal_error, FileAbsent))
    /\ (storage_ok Scenario.world FileAbsent = true ->
        submit_lead Scenario.world FileAbsent Scenario.body
          = (submitted (Lead.id lead),
             FileJSON (JArr (stored_leads FileAbsent ++ [Lead.to_json lead])))).
Proof.
  apply (omitted_optional_fields_get_defaults Scenario.world FileAbsent
           Scenario.body); reflexivity.
Defined.

(** The scenario of the specification, evaluated. *)
Example scenario_stored_record :
  submit_lead Scenario.world FileAbsent Scenario.body
  = (submitted "1700000000000", FileJSON (JArr [Lead.to_json Scenario.lead])).
Proof. reflexivity. Qed.

(** C10.  In the lead a successful submission stores, a message,
    requirement or type that was sent as the empty string (or is
    otherwise falsy) is replaced by the same default as an absent one,
    and a non-empty type is stored as sent, untrimmed. *)
Theorem empty_optional_fields_get_defaults
    (w : world) (f f' : leads_file) (b : Body.t) (r : response) :
  submit_lead w f b = (r, f') ->
  success r = true ->
  exists lead : Lead.t,
    stored_leads f' = (stored_leads f ++ [Lead.to_json lead])%list
    /\ (Body.message b = JStr "" \/ truthy (Body.message b) = false ->
        Lead.message lead = "No additional message provided")
    /\ (Body.requirement b = JStr "" \/ truthy (Body.requirement b) = false ->
        Lead.requirement lead = "General inquiry")
    /\ (Body.type b = JStr "" \/ truthy (Body.type b) = false ->
        Lead.type lead = JStr "contact_form")
    /\ (forall t, Body.type b = JStr t -> t <> "" -> Lead.type lead = JStr t).
Proof.
  intros H Hs.
  destruct (submit_lead_success_inv w f f' b r H Hs) as (lead & E & _).
  apply save_inv in E as [E ->]. exists lead.
  split; [reflexivity|].
  assert (forall v, v = JStr "" \/ truthy v = false -> truthy v = false) as F
    by (intros v [-> | Hv]; [reflexivity | assumption]).
  unfold leadData, trim_or, or_else in E.
  repeat split.
  - intros Hm%F. rewrite Hm in E. simplify_option_eq. reflexivity.
  - intros Hq%F. rewrite Hq in E. simplify_option_eq. reflexivity.
  - intros Ht%F. rewrite Ht in E. simplify_option_eq. reflexivity.
  - intros t Ht Hne. rewrite Ht in E.
    apply truthy_JStr in Hne. rewrite Hne in E.
    simplify_option_eq. reflexivity.
Qed.

Lemma empty_optional_fields_get_defaults_witness :
  exists lead : Lead.t,
    stored_leads (FileJSON (JArr [Lead.to_json Scenario.lead]))
    = (stored_leads FileAbsent ++ [Lead.to_json lead])%list
    /\ (JStr "" = JStr "" \/ truthy (JStr "") = false ->
        Lead.message lead = "No additional message provided")
    /\ (JStr "" = JStr "" \/ truthy (JStr "") = false ->
        Lead.requirement lead = "General inquiry")
    /\ (JStr "" = JStr "" \/ truthy (JStr "") = false ->
        Lead.type lead = JStr "contact_form")
    /\ (forall t, JStr "" = JStr t -> t <> "" -> Lead.type lead = JStr t).
Proof.
  apply (empty_optional_fields_get_defaults Scenario.world FileAbsent
           (FileJSON (JArr [Lead.to_json Scenario.lead]))
           (Scenario.with_optional (JStr "") (JStr "") (JStr ""))
           (submitted "1700000000000")); reflexivity.
Defined.

(** A type with blanks around it is stored with them, where a message is
    trimmed. *)
Example untrimmed_type :
  exists lead : Lead.t,
    leadData Scenario.world
      (Scenario.with_optional (JStr " hello ") (JStr "") (JStr " web "))
    = Some lead
    /\ Lead.message lead = "hello"
    /\ Lead.requirement lead = "General inquiry"
    /\ Lead.type lead = JStr " web ".
Proof. eexists. repeat split. Qed.

(** The ids a run of successful submissions leaves in the file are the
    ones the file had, followed by the clock readings of the requests. *)
Lemma submit_all_ids (reqs : list (world * Body.t)) :
  forall (f f' : leads_file) (rs : list response),
    submit_all f reqs = (rs, f') ->
    Forall (fun r => success r = true) rs ->
    lead_id <$> stored_leads f'
    = ((lead_id <$> stored_leads f)
       ++ ((fun q => Some (JStr (JsString.of_Z (Date_now (fst q))))) <$> reqs))%list.
Proof.
  induction reqs as [|[w b] rest IH]; intros f f' rs H Hs; cbn in H.
  - injection H as <- <-. cbn. now rewrite app_nil_r.
  - destruct (submit_lead w f b) as [r f1] eqn:E1.
    destruct (submit_all f1 rest) as [rs' f2] eqn:E2.
    injection H as <- <-.
    apply Forall_cons in Hs as [Hr Hs].
    destruct (submit_lead_success_inv w f f1 b r E1 Hr) as (lead & E & _).
    apply save_inv in E as [E ->].
    rewrite (IH _ _ _ E2 Hs).
    unfold stored_leads at 1. cbn [read_json].
    rewrite fmap_app. cbn. rewrite <- (leadData_id w b lead E).
    now rewrite <- app_assoc.
Qed.

(** C8, as amended.  Starting from a file without leads, a sequence of
    successful submissions made at pairwise distinct clock readings
    leaves exactly one lead for each request, whose id is the decimal
    rendering of that request's clock reading, and no two stored leads
    have the same id. *)
Theorem distinct_clock_readings_give_unique_ids
    (f f' : leads_file) (reqs : list (world * Body.t)) (rs : list response) :
  stored_leads f = [] ->
  submit_all f reqs = (rs, f') ->
  Forall (fun r => success r = true) rs ->
  NoDup ((fun q => Date_now (fst q)) <$> reqs) ->
  lead_id <$> stored_leads f'
  = (fun q => Some (JStr (JsString.of_Z (Date_now (fst q))))) <$> reqs
  /\ NoDup (lead_id <$> stored_leads f').
Proof.
  intros H0 H Hs Hd.
  pose proof (submit_all_ids reqs f f' rs H Hs) as E.
  rewrite H0 in E. cbn in E. split; [exact E|].
  rewrite E.
  change (fun q : world * Body.t => Some (JStr (JsString.of_Z (Date_now (fst q)))))
    with ((fun z => Some (JStr (JsString.of_Z z)))
          ∘ (fun q : world * Body.t => Date_now (fst q))).
  rewrite list_fmap_compose.
  apply NoDup_fmap_2; [|exact Hd].
  intros x y [= Exy]. now apply of_Z_inj.
Qed.

Lemma distinct_clock_readings_give_unique_ids_witness :
  let later := mkWorld 1700000000001 "2023-11-14T22:13:20.001Z" None true true in
  let reqs := [(Scenario.world, Scenario.body); (later, Scenario.body)] in
  lead_id <$> stored_leads (snd (submit_all FileAbsent reqs))
  = (fun q => Some (JStr (JsString.of_Z (Date_now (fst q))))) <$> reqs
  /\ NoDup (lead_id <$> stored_leads (snd (submit_all FileAbsent reqs))).
Proof.
  intros later reqs.
  apply (distinct_clock_readings_give_unique_ids FileAbsent
           (snd (submit_all FileAbsent reqs)) reqs
           (fst (submit_all FileAbsent reqs))).
  - reflexivity.
  - reflexivity.
  - repeat constructor.
  - apply (bool_decide_unpack _). vm_compute. reflexivity.
Defined.

(** C8 as stated fails: two submissions handled within the same
    millisecond both succeed and are stored under the same id. *)
Lemma same_millisecond_same_id :
  let reqs := [(Scenario.world, Scenario.body);
               (Scenario.world, Scenario.with_name (JStr "B"))] in
  fst (submit_all FileAbsent reqs)
  = [submitted "1700000000000"; submitted "1700000000000"]
  /\ lead_id <$> stored_leads (snd (submit_all FileAbsent reqs))
     = [Some (JStr "1700000000000"); Some (JStr "1700000000000")]
  /\ ~ NoDup (lead_id <$> stored_leads (snd (submit_all FileAbsent reqs))).
Proof.
  cbv zeta. split; [reflexivity|]. split; [reflexivity|].
  intros H. vm_compute in H. apply NoDup_cons in H as [H _].
  apply H. left.
Qed.

End IntakeClaims.

(** ** Listing and statistics *)

Section StatsFacts.
Import Stats.

Lemma occurrences_snoc (k x : string) (l : list string) :
  occurrences k (l ++ [x])
  = (occurrences k l + if decide (x = k) then 1 else 0)%nat.
Proof.
  unfold occurrences. rewrite filter_app, length_app.
  f_equal. rewrite filter_cons. case_decide; reflexivity.
Qed.

Lemma occurrences_zero (k : string) (l : list string) :
  occurrences k l = 0%nat <-> k ∉ l.
Proof.
  unfold occurrences. induction l as [|x l IH].
  - split; [intros _; apply not_elem_of_nil | reflexivity].
  - rewrite filter_cons, not_elem_of_cons.
    case_decide; cbn; [split; [discriminate | intros [? _]; congruence]|].
    rewrite IH. split; [intros ?; split; congruence | intros [_ ?]; assumption].
Qed.

(** The map of the specification, read key by key. *)
Lemma lookup_count_map (k : string) (l : list string) :
  count_map l !! k
  = if decide (occurrences k l = 0%nat) then None else Some (occurrences k l).
Proof.
  unfold count_map. case_decide as H.
  - apply not_elem_of_list_to_map. rewrite <- list_fmap_compose.
    cbn. rewrite list_fmap_id, elem_of_remove_dups.
    now apply occurrences_zero.
  - apply elem_of_list_to_map.
    + rewrite <- list_fmap_compose. cbn. rewrite list_fmap_id.
      apply NoDup_remove_dups.
    + apply (list_elem_of_fmap_2 (λ k, (k, occurrences k l))).
      apply elem_of_remove_dups.
      destruct (decide (k ∈ l)) as [|Hn]; [assumption|].
      now apply occurrences_zero in Hn.
Qed.

Lemma member_defined (v : jsval) (k k' : string) (x : jsval) :
  member v k = Some x -> exists y, member v k' = Some y.
Proof. destruct v; cbn; try discriminate; eauto. Qed.

Lemma carries_count_lead (acc : gmap string tally) (lead : jsval)
    (r : option string) :
  carries lead r -> count_lead acc lead = Some (bump acc (service_of r)).
Proof.
  unfold carries, count_lead. intros ->. cbn. do 2 f_equal.
  destruct r as [[|c s]|]; reflexivity.
Qed.

(** One step of the count on a key the prototype does not have. *)
Lemma bump_counts (acc : gmap string tally) (seen : list string) (x : string) :
  Object_prototype x = None ->
  (forall k, acc !! k = Count <$> count_map seen !! k) ->
  forall k, bump acc x !! k = Count <$> count_map (seen ++ [x]) !! k.
Proof.
  intros Hp Hacc k. unfold bump.
  rewrite (Hacc x), !lookup_count_map, occurrences_snoc.
  destruct (decide (occurrences x seen = 0%nat)) as [Hz|Hz]; cbn.
  - rewrite Hp, lookup_insert. repeat case_decide; subst; cbn;
      rewrite ?Hacc, ?lookup_count_map, ?Hz; repeat case_decide;
      try lia; try congruence;
      first [reflexivity | cbn; repeat f_equal; lia].
  - rewrite lookup_insert. repeat case_decide; subst; cbn;
      rewrite ?Hacc, ?lookup_count_map; repeat case_decide;
      try lia; try congruence;
      first [reflexivity | cbn; repeat f_equal; lia].
Qed.

Lemma reduce_counts (leads : list jsval) :
  forall (reqs : list (option string)) (acc : gmap string tally)
         (seen : list string),
    Forall2 carries leads reqs ->
    Forall (fun r => Object_prototype (service_of r) = None) reqs ->
    (forall k, acc !! k = Count <$> count_map seen !! k) ->
    exists m, reduce acc leads = Some m
      /\ forall k, m !! k = Count <$> count_map (seen ++ (service_of <$> reqs)) !! k.
Proof.
  induction leads as [|lead rest IH]; intros reqs acc seen Hc Hp Hacc.
  - apply Forall2_nil_inv_l in Hc as ->. exists acc. cbn.
    now rewrite app_nil_r.
  - apply Forall2_cons_inv_l in Hc as (r & reqs' & Hr & Hc & ->).
    apply Forall_cons in Hp as [Hp Hps].
    cbn [reduce]. rewrite (carries_count_lead acc lead r Hr). cbn.
    destruct (IH reqs' (bump acc (service_of r)) (seen ++ [service_of r])%list Hc Hps)
      as (m & Hm & Hk).
    + now apply bump_counts.
    + exists m. split; [exact Hm|]. intros k. rewrite Hk.
      now rewrite <- app_assoc.
Qed.

Lemma filter_today_defined (c : calendar) (leads : list jsval) :
  Forall dated leads ->
  exists kept, filter_today c leads = Some kept.
Proof.
  intros H.
  induction H as [|lead rest (v & Hv & [t Ht]) _ [kept IH]]; cbn; [eauto|].
  unfold is_today. rewrite Hv. cbn. rewrite Ht. cbn. rewrite IH. cbn. eauto.
Qed.

(** Over leads with a usable [submittedAt], none of whose requirement
    values names a member of [Object.prototype], totalLeads is the number
    of leads and serviceRequests is the map of the specification. *)
Lemma service_counts_outside_prototype (c : calendar) (leads : list jsval)
    (reqs : list (option string)) :
  Forall2 carries leads reqs ->
  Forall dated leads ->
  Forall (fun r => Object_prototype (service_of r) = None) reqs ->
  exists st, stats c (FileJSON (JArr leads)) = (200%nat, st)
    /\ totalLeads st = length leads
    /\ serviceRequests st = Count <$> count_map (service_of <$> reqs).
Proof.
  intros Hc Hd Hp. unfold stats. cbn.
  destruct (filter_today_defined c leads Hd) as [kept ->].
  destruct (reduce_counts leads reqs ∅ [] Hc Hp) as (m & -> & Hm).
  - intros k. now rewrite lookup_count_map, lookup_empty.
  - cbn. eexists. split; [reflexivity|]. split; [reflexivity|]. cbn.
    apply map_eq. intros k. now rewrite Hm, lookup_fmap.
Qed.

(** The example of the specification. *)
Example stats_example (c : calendar) :
  exists st,
    stats c (FileJSON (JArr (lead_with <$> [Some "Cloud"; Some "Cloud"; Some ""; Some "AI"])))
    = (200%nat, st)
    /\ totalLeads st = 4%nat
    /\ serviceRequests st
       = {[ "Cloud" := Count 2; "General Inquiry" := Count 1; "AI" := Count 1 ]}.
Proof.
  unfold stats. cbn.
  repeat match goal with |- context [if ?b then _ else _] => destruct b end;
    (eexists; split; [reflexivity|]; split; [reflexivity|]; cbn;
     apply map_eq; intros k; vm_compute; reflexivity).
Qed.

(** C4 fails on the code.  A lead submitted with the requirement
    "constructor" is accepted and stored with it; the statistics then
    report one lead, but under "constructor" the accumulator found the
    inherited [Object.prototype.constructor], so serviceRequests holds
    the text of that function followed by "1" where the map of the
    specification holds the count 1. *)
Theorem constructor_requirement_is_miscounted (c : calendar) :
  let b := Scenario.with_optional JUndefined (JStr "constructor") JUndefined in
  let f := snd (Intake.submit_lead Scenario.world FileAbsent b) in
  Intake.success (fst (Intake.submit_lead Scenario.world FileAbsent b)) = true
  /\ Forall2 carries (stored_leads f) [Some "constructor"]
  /\ exists st,
       stats c f = (200%nat, st)
       /\ totalLeads st = 1%nat
       /\ serviceRequests st !! "constructor"
          = Some (Text "function Object() { [native code] }1")
       /\ count_map [service_of (Some "constructor")] !! "constructor"
          = Some 1%nat.
Proof.
  cbv zeta.
  match goal with
  | |- context [Intake.submit_lead ?w ?f ?b] =>
      let r := eval vm_compute in (Intake.submit_lead w f b) in
      change (Intake.submit_lead w f b) with r
  end.
  split; [reflexivity|]. split; [repeat constructor|].
  unfold stats. cbn.
  destruct (String.eqb (today c) _);
    (eexists; split; [reflexivity|]; split; [reflexivity|];
     split; vm_compute; reflexivity).
Qed.

(** C6.  When the lead file is absent, unreadable or unparsable, the
    listing answers 200 with the empty array and the statistics answer
    200 with the zero-valued object. *)
Theorem unreadable_file_reads_as_empty (c : calendar) (f : leads_file) :
  f = FileAbsent \/ f = FileUnreadable \/ f = FileUnparsable ->
  Listing.list_leads f = (200%nat, JArr [])
  /\ stats c f = (200%nat, mk 0 0 ∅).
Proof. intros [-> | [-> | ->]]; split; reflexivity. Qed.

Lemma unreadable_file_reads_as_empty_witness :
  Listing.list_leads FileAbsent = (200%nat, JArr [])
  /\ stats (mkCalendar "Tue Nov 14 2023" (fun _ => "Invalid Date")) FileAbsent
     = (200%nat, mk 0 0 ∅).
Proof.
  apply (unreadable_file_reads_as_empty
           (mkCalendar "Tue Nov 14 2023" (fun _ => "Invalid Date")) FileAbsent).
  left. reflexivity.
Defined.

End StatsFacts.

(** ** Chat relay *)

Section ChatFacts.
Import Chat.

Lemma trim_empty_of_hi (m : string) :
  JsString.toLowerCase (JsString.trim m) = "hi" -> m <> "".
Proof. intros H ->. discriminate H. Qed.

(** C5.  A message whose trimmed, lower-cased form is "hi" is answered
    200 with the reply "gpt-40", and no outbound call is made. *)
Theorem hi_shortcut (cfg : config) (post : provider) (m : string) :
  JsString.toLowerCase (JsString.trim m) = "hi" ->
  chat cfg post (JStr m) = ((200%nat, Reply (JStr "gpt-40")), []).
Proof.
  intros H. unfold chat.
  pose proof (trim_empty_of_hi m H) as Hne.
  apply truthy_JStr in Hne. rewrite Hne. cbn.
  now rewrite trim_toLowerCase, H.
Qed.

Lemma hi_shortcut_witness :
  chat (mkConfig None None None (Some "https://search") (Some "key") None)
    (fun _ => Rejected "unreachable") (JStr " Hi ")
  = ((200%nat, Reply (JStr "gpt-40")), []).
Proof.
  apply (hi_shortcut
           (mkConfig None None None (Some "https://search") (Some "key") None)
           (fun _ => Rejected "unreachable") " Hi ").
  reflexivity.
Defined.

(** The inputs the specification names. *)
Example hi_examples (cfg : config) (post : provider) :
  Forall (fun m => chat cfg post (JStr m) = ((200%nat, Reply (JStr "gpt-40")), []))
    ["hi"; " Hi "; "HI"].
Proof. repeat constructor. Qed.

Lemma search_unavailable_empty (cfg : config) (post : provider) (m : string) :
  search_unavailable cfg post m -> fst (search cfg post m) = "".
Proof.
  unfold search. intros [-> | [[e H] | (data & H & Hv)]]; [reflexivity | |];
    destruct (_ && _); try reflexivity; rewrite H; [reflexivity|].
  cbn. unfold search_text. now rewrite Hv.
Qed.

(** C7.  For a message that is not the shortcut, when the Search Provider
    is not configured, fails or returns no result, [searchResults] is
    empty; the completion call is made, last, with a system prompt that
    has no "Additional Context" in it; the response is the one the
    completion call alone determines, 200 with the generated text when
    that call succeeds; and without configuration no search call is
    made. *)
Theorem search_failure_degrades_gracefully
    (cfg : config) (post : provider) (m : string) :
  m <> "" ->
  JsString.toLowerCase (JsString.trim m) <> "hi" ->
  search_unavailable cfg post m ->
  let call := completion_call cfg (systemMessage "") m in
  fst (search cfg post m) = ""
  /\ chat cfg post (JStr m)
     = (fst (complete cfg post (systemMessage "") m),
        (snd (search cfg post m) ++ [call])%list)
  /\ JsString.includes (systemMessage "") "Additional Context" = false
  /\ (forall data text,
        post call = Fulfilled data -> aiResponse data = Some text ->
        fst (chat cfg post (JStr m)) = (200%nat, Reply text))
  /\ (configured (searchEndpoint cfg) && configured (searchKey cfg) = false ->
      snd (chat cfg post (JStr m)) = [call]).
Proof.
  intros Hne Hhi Hs call.
  pose proof (search_unavailable_empty cfg post m Hs) as He.
  assert (chat cfg post (JStr m)
          = (fst (complete cfg post (systemMessage "") m),
             (snd (search cfg post m) ++ [call])%list)) as Hc.
  { unfold chat. apply truthy_JStr in Hne. rewrite Hne. cbn.
    rewrite trim_toLowerCase.
    destruct (String.eqb_spec (JsString.toLowerCase (JsString.trim m)) "hi")
      as [E|_]; [contradiction|].
    destruct (search cfg post m) as [results calls]. cbn in He. subst results.
    unfold complete. fold call.
    destruct (post call) as [e|data]; [reflexivity|].
    destruct (aiResponse data); reflexivity. }
  split; [exact He|]. split; [exact Hc|]. split; [vm_compute; reflexivity|].
  split.
  - intros data text Hp Ht. rewrite Hc. cbn. unfold complete. fold call.
    now rewrite Hp, Ht.
  - intros Hu. rewrite Hc. cbn. unfold search. now rewrite Hu.
Qed.

Lemma search_failure_degrades_gracefully_witness :
  let cfg := mkConfig (Some "https://openai") (Some "k") (Some "gpt")
               (Some "https://search") (Some "key") (Some "docs") in
  let post := fun call =>
                match call with
                | Search _ _ _ _ _ => Rejected "timeout"
                | Completion _ _ _ _ _ =>
                    Fulfilled
                      (JObj [("choices",
                              JArr [JObj [("message",
                                           JObj [("content", JStr "Hello")])]])])
                end in
  let call := completion_call cfg (systemMessage "") "What do you offer?" in
  fst (search cfg post "What do you offer?") = ""
  /\ chat cfg post (JStr "What do you offer?")
     = (fst (complete cfg post (systemMessage "") "What do you offer?"),
        (snd (search cfg post "What do you offer?") ++ [call])%list)
  /\ JsString.includes (systemMessage "") "Additional Context" = false
  /\ (forall data text,
        post call = Fulfilled data -> aiResponse data = Some text ->
        fst (chat cfg post (JStr "What do you offer?")) = (200%nat, Reply text))
  /\ (configured (searchEndpoint cfg) && configured (searchKey cfg) = false ->
      snd (chat cfg post (JStr "What do you offer?")) = [call]).
Proof.
  intros cfg post.
  apply (search_failure_degrades_gracefully cfg post "What do you offer?").
  - discriminate.
  - discriminate.
  - right. left. exists "timeout". reflexivity.
Defined.

(** The run of the witness, evaluated: the search call fails, the
    completion call follows, and the caller gets the generated text. *)
Example degraded_chat :
  let cfg := mkConfig (Some "https://openai") (Some "k") (Some "gpt")
               (Some "https://search") (Some "key") (Some "docs") in
  let post := fun call =>
                match call with
                | Search _ _ _ _ _ => Rejected "timeout"
                | Completion _ _ _ _ _ =>
                    Fulfilled
                      (JObj [("choices",
                              JArr [JObj [("message",
                                           JObj [("content", JStr "Hello")])]])])
                end in
  chat cfg post (JStr "What do you offer?")
  = ((200%nat, Reply (JStr "Hello")),
     [search_call cfg "What do you offer?";
      completion_call cfg (systemMessage "") "What do you offer?"]).
Proof. reflexivity. Qed.

(** With results, the context is added to the prompt. *)
Example augmented_prompt :
  search_text (JObj [("value", JArr [JObj [("content", JStr "a")];
                                     JObj [("content", JStr "b")]])])
  = Some ("a" ++ nl ++ nl ++ "b")
  /\ JsString.includes (systemMessage "a") "Additional Context: a" = true.
Proof. split; reflexivity. Qed.

End ChatFacts.

(** * Further properties of the handlers *)

(** ** White space and case *)

Section TrimFacts.
Import JsString.

Lemma trimStart_fixed (s : string) :
  match s with String c _ => is_ws c = false | EmptyString => True end ->
  trimStart s = s.
Proof. destruct s as [|c r]; cbn; [reflexivity|]. now intros ->. Qed.

Lemma trimStart_head (s : string) :
  match trimStart s with String c _ => is_ws c = false | EmptyString => True end.
Proof.
  induction s as [|c r IH]; cbn; [exact I|].
  destruct (is_ws c) eqn:E; [exact IH | exact E].
Qed.

Lemma trimEnd_head (s : string) :
  match s with String c _ => is_ws c = false | EmptyString => True end ->
  match trimEnd s with String c _ => is_ws c = false | EmptyString => True end.
Proof.
  destruct s as [|c r]; cbn; [trivial|]. intros E.
  destruct (trimEnd r); [rewrite E|]; exact E.
Qed.

Lemma trimEnd_cons (c : ascii) (r : string) :
  trimEnd (String c r)
  = match trimEnd r with
    | EmptyString => if is_ws c then EmptyString else String c EmptyString
    | r' => String c r'
    end.
Proof. reflexivity. Qed.

Lemma trimEnd_idempotent (s : string) : trimEnd (trimEnd s) = trimEnd s.
Proof.
  induction s as [|c r IH]; [reflexivity|].
  rewrite trimEnd_cons.
  destruct (trimEnd r) as [|c' r'] eqn:E.
  - destruct (is_ws c) eqn:W; cbn; [reflexivity | now rewrite W].
  - rewrite trimEnd_cons, IH. reflexivity.
Qed.

(** Trimming twice is trimming once. *)
Lemma trim_idempotent (s : string) : trim (trim s) = trim s.
Proof.
  unfold trim.
  rewrite (trimStart_fixed (trimEnd (trimStart s))).
  - apply trimEnd_idempotent.
  - apply trimEnd_head, trimStart_head.
Qed.

Lemma trimEnd_no_space (s : string) : Shape.no_space s = true -> trimEnd s = s.
Proof.
  unfold Shape.no_space.
  induction s as [|c r IH]; cbn; [reflexivity|].
  rewrite andb_true_iff, negb_true_iff. intros [W Hr].
  rewrite (IH Hr). destruct r; [now rewrite W | reflexivity].
Qed.

(** A string without white space is left as it is. *)
Lemma trim_no_space (s : string) : Shape.no_space s = true -> trim s = s.
Proof.
  intros H. unfold trim. rewrite trimStart_fixed; [now apply trimEnd_no_space|].
  destruct s as [|c r]; [exact I|].
  unfold Shape.no_space in H. cbn in H.
  apply andb_true_iff in H as [H _]. now apply negb_true_iff in H.
Qed.

Lemma lower_char_idempotent (c : ascii) :
  lower_char (lower_char c) = lower_char c.
Proof. destruct c as [[] [] [] [] [] [] [] []]; vm_compute; reflexivity. Qed.

Lemma toLowerCase_idempotent (s : string) :
  toLowerCase (toLowerCase s) = toLowerCase s.
Proof.
  induction s as [|c r IH]; cbn; [reflexivity|].
  now rewrite lower_char_idempotent, IH.
Qed.

Lemma toLowerCase_append (s t : string) :
  toLowerCase (s ++ t) = toLowerCase s ++ toLowerCase t.
Proof.
  induction s as [|c r IH]; [reflexivity|].
  change (String c r ++ t) with (String c (r ++ t)).
  cbn [toLowerCase]. rewrite IH. reflexivity.
Qed.

Lemma not_space_nor_at_lower (c : ascii) :
  not_space_nor_at (lower_char c) = not_space_nor_at c.
Proof. destruct c as [[] [] [] [] [] [] [] []]; vm_compute; reflexivity. Qed.

Lemma all_in_toLowerCase (s : string) :
  Regex.all_in not_space_nor_at (toLowerCase s)
  = Regex.all_in not_space_nor_at s.
Proof.
  induction s as [|c r IH]; cbn; [reflexivity|].
  now rewrite not_space_nor_at_lower, IH.
Qed.

Lemma all_in_append (p : ascii -> bool) (s t : string) :
  Regex.all_in p (s ++ t) = Regex.all_in p s && Regex.all_in p t.
Proof.
  induction s as [|c r IH]; [reflexivity|].
  change (String c r ++ t) with (String c (r ++ t)).
  cbn [Regex.all_in]. rewrite IH. now rewrite andb_assoc.
Qed.

Lemma all_in_weaken (p q : ascii -> bool) (s : string) :
  (forall c, p c = true -> q c = true) ->
  Regex.all_in p s = true -> Regex.all_in q s = true.
Proof.
  intros Hpq. induction s as [|c r IH]; cbn; [reflexivity|].
  rewrite !andb_true_iff. intros [Hc Hr]. auto.
Qed.

(** An address of the required shape holds no white space. *)
Lemma email_no_space (e : string) :
  Regex.matches emailRegex e = true -> Shape.no_space e = true.
Proof.
  intros (a & b & c & -> & [_ Ha] & [_ Hb] & [_ Hc])%emailRegex_shape.
  assert (forall s, Regex.all_in not_space_nor_at s = true ->
                    Shape.no_space s = true) as W.
  { intros s. apply all_in_weaken. intros x.
    unfold not_space_nor_at. now intros [? _]%andb_true_iff. }
  unfold Shape.no_space in *.
  rewrite !all_in_append, (W a Ha), (W b Hb), (W c Hc). reflexivity.
Qed.

(** Lower-casing keeps an address in the required shape. *)
Lemma email_toLowerCase (e : string) :
  Regex.matches emailRegex e = true ->
  Regex.matches emailRegex (toLowerCase e) = true.
Proof.
  intros (a & b & c & -> & [Na Ha] & [Nb Hb] & [Nc Hc])%emailRegex_shape.
  apply emailRegex_shape.
  exists (toLowerCase a), (toLowerCase b), (toLowerCase c).
  rewrite !toLowerCase_append, !all_in_toLowerCase, !toLowerCase_empty.
  repeat split; assumption.
Qed.

(** The pattern of line 45 accepts a string exactly when it is [a@b.c]
    with three non-empty parts free of white space and of [@]; a string it
    accepts holds no white space at all, so trimming leaves it as it is. *)
Theorem email_pattern_language (s : string) :
  (Regex.matches emailRegex s = true <->
   exists a b c,
     s = a ++ "@" ++ b ++ "." ++ c
     /\ (a <> "" /\ Regex.all_in not_space_nor_at a = true)
     /\ (b <> "" /\ Regex.all_in not_space_nor_at b = true)
     /\ (c <> "" /\ Regex.all_in not_space_nor_at c = true))
  /\ (Regex.matches emailRegex s = true ->
      Shape.no_space s = true /\ trim s = s).
Proof.
  split; [apply emailRegex_shape|].
  intros H. split; [now apply email_no_space|].
  now apply trim_no_space, email_no_space.
Qed.

Lemma email_pattern_language_witness :
  (Regex.matches emailRegex "ann.lee@mail.example.org" = true <->
   exists a b c,
     "ann.lee@mail.example.org" = a ++ "@" ++ b ++ "." ++ c
     /\ (a <> "" /\ Regex.all_in not_space_nor_at a = true)
     /\ (b <> "" /\ Regex.all_in not_space_nor_at b = true)
     /\ (c <> "" /\ Regex.all_in not_space_nor_at c = true))
  /\ (Regex.matches emailRegex "ann.lee@mail.example.org" = true ->
      Shape.no_space "ann.lee@mail.example.org" = true
      /\ trim "ann.lee@mail.example.org" = "ann.lee@mail.example.org").
Proof. apply (email_pattern_language "ann.lee@mail.example.org"). Defined.

End TrimFacts.

(** ** What the intake stores *)

Section IntakeInvariants.
Import Intake.

(** What a successful answer tells about the request. *)
Lemma submit_lead_accepted (w : world) (f f' : leads_file) (b : Body.t)
    (r : response) :
  submit_lead w f b = (r, f') -> success r = true ->
  Regex.test emailRegex (Body.email b) = Some true
  /\ exists lead,
       leadData w b = Some lead
       /\ f' = FileJSON (JArr (stored_leads f ++ [Lead.to_json lead]))
       /\ r = submitted (Lead.id lead).
Proof.
  unfold submit_lead.
  destruct (_ || _); [intros [= <- <-]; discriminate|].
  destruct (Regex.test emailRegex (Body.email b)) as [[]|] eqn:T;
    [|intros [= <- <-]; discriminate ..].
  destruct (save w f b) as [[lead f1]|] eqn:E; intros [= <- <-]; [|discriminate].
  intros _. split; [reflexivity|].
  apply save_inv in E as [E ->]. eauto.
Qed.

Lemma trim_or_inv (v : jsval) (d s : string) :
  trim_or v d = Some s ->
  (truthy v = false /\ s = d)
  \/ (exists m, v = JStr m /\ m <> "" /\ s = JsString.trim m).
Proof.
  unfold trim_or. destruct (truthy v) eqn:T.
  - destruct v; cbn; try discriminate. intros [= <-]. right.
    apply truthy_JStr in T. eauto.
  - intros [= <-]. now left.
Qed.

(** The fields of the record in terms of the fields that were sent. *)
Lemma leadData_inv (w : world) (b : Body.t) (lead : Lead.t) :
  leadData w b = Some lead ->
  exists n p e c m q,
    Body.name b = JStr n /\ Body.phone b = JStr p
    /\ Body.email b = JStr e /\ Body.company b = JStr c
    /\ trim_or (Body.message b) "No additional message provided" = Some m
    /\ trim_or (Body.requirement b) "General inquiry" = Some q
    /\ lead = Lead.mk (JsString.of_Z (Date_now w))
                (JsString.trim n) (JsString.trim p)
                (JsString.toLowerCase (JsString.trim e)) (JsString.trim c)
                m q
                (or_else (Body.type b) (JStr "contact_form"))
                (toISOString w)
                (match req_ip w with
                 | Some a => if JsString.is_empty a then "unknown" else a
                 | None => "unknown"
                 end).
Proof.
  unfold leadData. intros H.
  destruct (Body.name b) as [| | | |n| |]; try discriminate H.
  destruct (Body.phone b) as [| | | |p| |]; try discriminate H.
  destruct (Body.email b) as [| | | |e| |]; try discriminate H.
  destruct (Body.company b) as [| | | |c| |]; try discriminate H.
  cbn in H.
  destruct (trim_or (Body.message b) _) as [m|]; [|discriminate H].
  destruct (trim_or (Body.requirement b) _) as [q|]; [|discriminate H].
  cbn in H. injection H as <-.
  exists n, p, e, c, m, q. repeat split; reflexivity.
Qed.

Lemma trim_or_fixed (v : jsval) (d s : string) :
  JsString.trim d = d -> trim_or v d = Some s -> JsString.trim s = s.
Proof.
  intros Hd [[_ ->] | (m & _ & _ & ->)]%trim_or_inv;
    [exact Hd | apply trim_idempotent].
Qed.

(** The address of every lead that is stored is the one that was sent, in
    lower case; it still has the required shape, holds no white space and
    no capital letter is left in it. *)
Theorem stored_email_is_canonical
    (w : world) (f f' : leads_file) (b : Body.t) (r : response) :
  submit_lead w f b = (r, f') ->
  success r = true ->
  exists (e : string) (lead : Lead.t),
    Body.email b = JStr e
    /\ stored_leads f' = (stored_leads f ++ [Lead.to_json lead])%list
    /\ Lead.email lead = JsString.toLowerCase e
    /\ Regex.matches emailRegex (Lead.email lead) = true
    /\ Shape.no_space (Lead.email lead) = true
    /\ JsString.toLowerCase (Lead.email lead) = Lead.email lead.
Proof.
  intros H Hs.
  destruct (submit_lead_accepted w f f' b r H Hs) as (T & lead & E & -> & _).
  destruct (leadData_inv w b lead E) as (n & p & e & c & m & q & _ & _ & Ee & _ & _ & _ & ->).
  rewrite Ee in T. unfold Regex.test in T. cbn in T. injection T as T.
  exists e. eexists. split; [exact Ee|]. split; [reflexivity|]. cbn.
  rewrite (trim_no_space e (email_no_space e T)).
  pose proof (email_toLowerCase e T) as L.
  repeat split;
    [exact L | now apply email_no_space | apply toLowerCase_idempotent].
Qed.

Lemma stored_email_is_canonical_witness :
  exists (e : string) (lead : Lead.t),
    JStr "Ann@Example.COM" = JStr e
    /\ stored_leads
         (snd (submit_lead Scenario.world FileAbsent
                 (Scenario.with_email (JStr "Ann@Example.COM"))))
       = (stored_leads FileAbsent ++ [Lead.to_json lead])%list
    /\ Lead.email lead = JsString.toLowerCase e
    /\ Regex.matches emailRegex (Lead.email lead) = true
    /\ Shape.no_space (Lead.email lead) = true
    /\ JsString.toLowerCase (Lead.email lead) = Lead.email lead.
Proof.
  apply (stored_email_is_canonical Scenario.world FileAbsent
           (snd (submit_lead Scenario.world FileAbsent
                   (Scenario.with_email (JStr "Ann@Example.COM"))))
           (Scenario.with_email (JStr "Ann@Example.COM"))
           (fst (submit_lead Scenario.world FileAbsent
                   (Scenario.with_email (JStr "Ann@Example.COM")))));
    reflexivity.
Defined.

(** The name, phone, company, message and requirement of every lead that
    is stored have no white space at either end: trimming them again
    changes nothing. *)
Theorem stored_text_is_trimmed
    (w : world) (f f' : leads_file) (b : Body.t) (r : response) :
  submit_lead w f b = (r, f') ->
  success r = true ->
  exists lead : Lead.t,
    stored_leads f' = (stored_leads f ++ [Lead.to_json lead])%list
    /\ JsString.trim (Lead.name lead) = Lead.name lead
    /\ JsString.trim (Lead.phone lead) = Lead.phone lead
    /\ JsString.trim (Lead.company lead) = Lead.company lead
    /\ JsString.trim (Lead.message lead) = Lead.message lead
    /\ JsString.trim (Lead.requirement lead) = Lead.requirement lead.
Proof.
  intros H Hs.
  destruct (submit_lead_accepted w f f' b r H Hs) as (_ & lead & E & -> & _).
  destruct (leadData_inv w b lead E)
    as (n & p & e & c & m & q & _ & _ & _ & _ & Em & Eq & ->).
  eexists. split; [reflexivity|]. cbn.
  repeat split; try apply trim_idempotent.
  - now apply (trim_or_fixed _ _ _ eq_refl Em).
  - now apply (trim_or_fixed _ _ _ eq_refl Eq).
Qed.

Lemma stored_text_is_trimmed_witness :
  let b := Body.mk (JStr "  Ann  ") (JStr " 123 ") (JStr "a@b.com")
             (JStr " X ") (JStr "  call me ") (JStr " Cloud ") JUndefined in
  exists lead : Lead.t,
    stored_leads (snd (submit_lead Scenario.world FileAbsent b))
    = (stored_leads FileAbsent ++ [Lead.to_json lead])%list
    /\ JsString.trim (Lead.name lead) = Lead.name lead
    /\ JsString.trim (Lead.phone lead) = Lead.phone lead
    /\ JsString.trim (Lead.company lead) = Lead.company lead
    /\ JsString.trim (Lead.message lead) = Lead.message lead
    /\ JsString.trim (Lead.requirement lead) = Lead.requirement lead.
Proof.
  intros b.
  apply (stored_text_is_trimmed Scenario.world FileAbsent
           (snd (submit_lead Scenario.world FileAbsent b)) b
           (fst (submit_lead Scenario.world FileAbsent b)));
    reflexivity.
Defined.

(** Every lead that is stored has a non-empty id, which renders the clock
    reading of its request, a non-empty email, a non-empty ip, a type that
    is not empty either, and the time stamp of its request. *)
Theorem stored_lead_is_identified
    (w : world) (f f' : leads_file) (b : Body.t) (r : response) :
  submit_lead w f b = (r, f') ->
  success r = true ->
  exists lead : Lead.t,
    stored_leads f' = (stored_leads f ++ [Lead.to_json lead])%list
    /\ Lead.id lead = JsString.of_Z (Date_now w) /\ Lead.id lead <> ""
    /\ Lead.email lead <> ""
    /\ Lead.ip lead <> ""
    /\ truthy (Lead.type lead) = true
    /\ Lead.submittedAt lead = toISOString w.
Proof.
  intros H Hs.
  destruct (submit_lead_accepted w f f' b r H Hs) as (T & lead & E & -> & _).
  destruct (leadData_inv w b lead E)
    as (n & p & e & c & m & q & _ & _ & Ee & _ & _ & _ & ->).
  rewrite Ee in T. unfold Regex.test in T. cbn in T. injection T as T.
  eexists. split; [reflexivity|]. cbn.
  split; [reflexivity|]. split; [apply of_Z_nonempty|].
  split.
  { rewrite (trim_no_space e (email_no_space e T)).
    rewrite toLowerCase_empty. intros ->. discriminate T. }
  split.
  { destruct (req_ip w) as [a|]; [|discriminate].
    destruct (JsString.is_empty a) eqn:A; [discriminate|].
    now apply is_empty_false. }
  split; [|reflexivity].
  unfold or_else. destruct (truthy (Body.type b)) eqn:Y; [exact Y | reflexivity].
Qed.

Lemma stored_lead_is_identified_witness :
  exists lead : Lead.t,
    stored_leads (snd (submit_lead Scenario.world FileAbsent Scenario.body))
    = (stored_leads FileAbsent ++ [Lead.to_json lead])%list
    /\ Lead.id lead = JsString.of_Z (Date_now Scenario.world)
    /\ Lead.id lead <> ""
    /\ Lead.email lead <> ""
    /\ Lead.ip lead <> ""
    /\ truthy (Lead.type lead) = true
    /\ Lead.submittedAt lead = toISOString Scenario.world.
Proof.
  apply (stored_lead_is_identified Scenario.world FileAbsent
           (snd (submit_lead Scenario.world FileAbsent Scenario.body))
           Scenario.body
           (fst (submit_lead Scenario.world FileAbsent Scenario.body)));
    reflexivity.
Defined.

(** A name, phone or company of white space only is accepted whenever the
    rest of the submission is: the check of line 37 sees a non-empty
    string, and the lead is stored with the empty string in its place. *)
Lemma blank_name_is_stored_empty
    (w : world) (f : leads_file) (b : Body.t) (n : string) :
  valid b = true ->
  text_or_falsy (Body.message b) = true ->
  text_or_falsy (Body.requirement b) = true ->
  storage_ok w f = true ->
  Body.name b = JStr n -> JsString.trim n = "" ->
  exists lead : Lead.t,
    submit_lead w f b
    = (submitted (Lead.id lead),
       FileJSON (JArr (stored_leads f ++ [Lead.to_json lead])))
    /\ Lead.name lead = "".
Proof.
  intros Hv Hm Hq Hs Hn Ht.
  destruct (leadData_defined w b Hv Hm Hq) as (lead & Hl & _).
  exists lead. rewrite (valid_passes w f b Hv), (save_ok w f b lead Hl Hs).
  split; [reflexivity|].
  destruct (leadData_inv w b lead Hl)
    as (n' & p & e & c & m & q & En & _ & _ & _ & _ & _ & ->).
  rewrite Hn in En. injection En as <-. exact Ht.
Qed.

(** An email of white space only is always refused: it gets past the check
    of line 37 and fails the pattern. *)
Lemma blank_email_always_refused
    (w : world) (f : leads_file) (b : Body.t) (e : string) :
  truthy (Body.name b) = true -> truthy (Body.phone b) = true ->
  truthy (Body.company b) = true ->
  Body.email b = JStr e -> e <> "" -> JsString.trim e = "" ->
  submit_lead w f b = (invalid_email, f).
Proof.
  intros Hn Hp Hc He Hne Ht. unfold submit_lead.
  rewrite Hn, Hp, Hc, He. apply truthy_JStr in Hne as Hy. rewrite Hy. cbn.
  unfold Regex.test. cbn.
  destruct (Regex.matches emailRegex e) eqn:M; [|reflexivity].
  apply email_no_space, trim_no_space in M. congruence.
Qed.

(** The handler is its two steps, one right after the other. *)
Lemma submit_lead_phases (w : world) (f : leads_file) (b : Body.t) :
  submit_lead w f b
  = match Phases.read_phase w f b with
    | inl r => (r, f)
    | inr p => Phases.write_phase w p f
    end.
Proof.
  unfold submit_lead, Phases.read_phase, Phases.write_phase, save.
  destruct (_ || _); [reflexivity|].
  destruct (Regex.test emailRegex (Body.email b)) as [[]|]; try reflexivity.
  destruct (leadData w b) as [lead|]; [|reflexivity]. cbn.
  destruct (mkdir_ok w); [|reflexivity]. cbn.
  destruct (push _ _) as [leads'|]; [|reflexivity]. cbn.
  now destruct (writeFile_ok w).
Qed.

(** What the first step leaves to be written is the stored leads with the
    new one at their end. *)
Lemma read_phase_pending (w : world) (f : leads_file) (b : Body.t)
    (p : Phases.pending) :
  Phases.read_phase w f b = inr p ->
  Phases.leads p = JArr (stored_leads f ++ [Lead.to_json (Phases.lead p)]).
Proof.
  unfold Phases.read_phase, stored_leads.
  destruct (_ || _); [discriminate|].
  destruct (Regex.test emailRegex (Body.email b)) as [[]|]; try discriminate.
  destruct (leadData w b) as [lead|]; [|discriminate]. cbn.
  destruct (mkdir_ok w); [|discriminate]. cbn.
  destruct (read_json f) as [[]|]; cbn; try discriminate;
    now intros [= <-].
Qed.

(** The answers of the intake: 200 with the success flag and a leadId, or
    400 or 500 without them.  A 400 is given before any file operation and
    leaves the file as the request found it; so does a 500, unless it
    comes from the write itself. *)
Theorem refusal_leaves_file (w : world) (f : leads_file) (b : Body.t) :
  let r := fst (submit_lead w f b) in
  let f' := snd (submit_lead w f b) in
  (status r = 200%nat /\ success r = true /\ is_Some (leadId r))
  \/ (status r = 400%nat /\ success r = false /\ leadId r = None
      /\ Phases.read_phase w f b = inl r /\ f' = f)
  \/ (status r = 500%nat /\ success r = false /\ leadId r = None
      /\ (writeFile_ok w = true ->
          Phases.read_phase w f b = inl r /\ f' = f)).
Proof.
  cbv zeta. rewrite submit_lead_phases.
  unfold Phases.read_phase, Phases.write_phase.
  destruct (_ || _); [right; left; cbn; auto|].
  destruct (Regex.test emailRegex (Body.email b)) as [[]|];
    [|right; left; cbn; auto | right; right; cbn; auto].
  destruct (_ ≫= _) as [p|]; [|right; right; cbn; auto].
  destruct (writeFile_ok w); [left | right; right]; cbn; eauto.
  repeat split. discriminate.
Qed.

(** One request adds one lead at the end, or none. *)
Lemma submit_lead_step (w : world) (f : leads_file) (b : Body.t) :
  let r := fst (submit_lead w f b) in
  let f' := snd (submit_lead w f b) in
  (success r = true /\ exists x, stored_leads f' = (stored_leads f ++ [x])%list)
  \/ (success r = false /\ f' = f).
Proof.
  cbv zeta. unfold submit_lead.
  destruct (_ || _); [now right|].
  destruct (Regex.test emailRegex (Body.email b)) as [[]|]; [|now right ..].
  destruct (save w f b) as [[lead f1]|] eqn:E; [left | now right].
  apply save_inv in E as [_ ->]. split; [reflexivity|]. eexists. reflexivity.
Qed.

(** Between requests that are handled one after the other, each answered
    before the next one starts, the store only grows at its end: the leads
    that were stored are still there, first and in their order, and one
    lead was added for each success answer. *)
Theorem store_is_append_only (reqs : list (world * Body.t)) :
  forall f : leads_file,
    Forall (fun q => writeFile_ok (fst q) = true) reqs ->
    stored_leads f `prefix_of` stored_leads (snd (submit_all f reqs))
    /\ length (stored_leads (snd (submit_all f reqs)))
       = (length (stored_leads f)
          + length (filter (fun r => success r = true) (fst (submit_all f reqs))))%nat.
Proof.
  induction reqs as [|[w b] rest IH]; intros f Hw; cbn [submit_all].
  - cbn. split; [reflexivity | lia].
  - apply Forall_cons in Hw as [_ Hw].
    pose proof (submit_lead_step w f b) as St. cbv zeta in St.
    destruct (submit_lead w f b) as [r f1]. cbn [fst snd] in St.
    specialize (IH f1 Hw). destruct (submit_all f1 rest) as [rs f2].
    cbn [fst snd] in *.
    destruct IH as [IHp IHl]. rewrite filter_cons.
    destruct St as [[S [x Ex]] | [S ->]]; rewrite S.
    + rewrite decide_True by reflexivity. split.
      * etrans; [|exact IHp]. rewrite Ex. now apply prefix_app_r.
      * rewrite IHl, Ex, length_app. cbn. lia.
    + rewrite decide_False by discriminate. split; [exact IHp | exact IHl].
Qed.

Lemma store_is_append_only_witness :
  let later := mkWorld 1700000000001 "2023-11-14T22:13:20.001Z" None true true in
  let reqs := [(Scenario.world, Scenario.body);
               (Scenario.world, Scenario.with_email (JStr "a@b"));
               (later, Scenario.with_name (JStr "B"))] in
  stored_leads (FileJSON (JArr [Lead.to_json Scenario.lead]))
    `prefix_of`
    stored_leads (snd (submit_all (FileJSON (JArr [Lead.to_json Scenario.lead])) reqs))
  /\ length (stored_leads
               (snd (submit_all (FileJSON (JArr [Lead.to_json Scenario.lead])) reqs)))
     = (length (stored_leads (FileJSON (JArr [Lead.to_json Scenario.lead])))
        + length (filter (fun r => success r = true)
                    (fst (submit_all (FileJSON (JArr [Lead.to_json Scenario.lead]))
                            reqs))))%nat.
Proof.
  intros later reqs.
  apply (store_is_append_only reqs (FileJSON (JArr [Lead.to_json Scenario.lead]))).
  repeat constructor.
Defined.

(** Two requests that overlap: both read the file before either writes.
    Both are answered 200, but the second write replaces the first: the
    file then holds the leads it held followed by the lead of the request
    that wrote last, and the lead of the other request is gone. *)
Theorem overlapping_submissions_lose_a_lead
    (w1 w2 : world) (f : leads_file) (b1 b2 : Body.t)
    (p1 p2 : Phases.pending) :
  Phases.read_phase w1 f b1 = inr p1 ->
  Phases.read_phase w2 f b2 = inr p2 ->
  writeFile_ok w1 = true ->
  writeFile_ok w2 = true ->
  let r1 := fst (Phases.write_phase w1 p1 f) in
  let f1 := snd (Phases.write_phase w1 p1 f) in
  let r2 := fst (Phases.write_phase w2 p2 f1) in
  let f2 := snd (Phases.write_phase w2 p2 f1) in
  success r1 = true /\ success r2 = true
  /\ stored_leads f1
     = (stored_leads f ++ [Lead.to_json (Phases.lead p1)])%list
  /\ stored_leads f2
     = (stored_leads f ++ [Lead.to_json (Phases.lead p2)])%list
  /\ length (stored_leads f2) = S (length (stored_leads f)).
Proof.
  intros H1 H2 W1 W2. cbv zeta. unfold Phases.write_phase.
  rewrite W1, W2. cbn [fst snd].
  rewrite (read_phase_pending w1 f b1 p1 H1), (read_phase_pending w2 f b2 p2 H2).
  assert (forall l, stored_leads (FileJSON (JArr l)) = l) as St by reflexivity.
  rewrite !St. repeat split. rewrite length_app. cbn. lia.
Qed.

Lemma overlapping_submissions_lose_a_lead_witness :
  let later := mkWorld 1700000000001 "2023-11-14T22:13:20.001Z" None true true in
  let b2 := Scenario.with_name (JStr "B") in
  let first := Lead.to_json Scenario.lead in
  let second :=
    Lead.to_json
      (Lead.mk "1700000000001" "B" "123" "a@b.com" "X"
         "No additional message provided" "General inquiry"
         (JStr "contact_form") "2023-11-14T22:13:20.001Z" "unknown") in
  let p1 := Phases.mkPending Scenario.lead (JArr [first]) in
  let p2 :=
    Phases.mkPending
      (Lead.mk "1700000000001" "B" "123" "a@b.com" "X"
         "No additional message provided" "General inquiry"
         (JStr "contact_form") "2023-11-14T22:13:20.001Z" "unknown")
      (JArr [second]) in
  let r1 := fst (Phases.write_phase Scenario.world p1 FileAbsent) in
  let f1 := snd (Phases.write_phase Scenario.world p1 FileAbsent) in
  let r2 := fst (Phases.write_phase later p2 f1) in
  let f2 := snd (Phases.write_phase later p2 f1) in
  success r1 = true /\ success r2 = true
  /\ stored_leads f1
     = (stored_leads FileAbsent ++ [Lead.to_json (Phases.lead p1)])%list
  /\ stored_leads f2
     = (stored_leads FileAbsent ++ [Lead.to_json (Phases.lead p2)])%list
  /\ length (stored_leads f2) = S (length (stored_leads FileAbsent)).
Proof.
  intros later b2 first second p1 p2.
  apply (overlapping_submissions_lose_a_lead Scenario.world later FileAbsent
           Scenario.body b2 p1 p2); reflexivity.
Defined.

(** A file that holds JSON other than an array (an object, a number, a
    string, null) blocks the intake: no submission succeeds, a valid one
    is answered 500, and the file stays as it is; the listing shows the
    value as it is and the statistics are the zero ones. *)
Theorem non_array_file_blocks_intake
    (c : Stats.calendar) (w : world) (b : Body.t) (v : jsval) :
  (forall l, v <> JArr l) ->
  success (fst (submit_lead w (FileJSON v) b)) = false
  /\ snd (submit_lead w (FileJSON v) b) = FileJSON v
  /\ (valid b = true -> fst (submit_lead w (FileJSON v) b) = internal_error)
  /\ Listing.list_leads (FileJSON v) = (200%nat, v)
  /\ Stats.stats c (FileJSON v) = (200%nat, Stats.zero).
Proof.
  intros Hv.
  assert (save w (FileJSON v) b = None) as Sv.
  { unfold save. destruct (leadData w b); [|reflexivity]. cbn.
    destruct (mkdir_ok w); [|reflexivity]. cbn.
    destruct v; try reflexivity. now destruct (Hv items). }
  repeat split.
  - unfold submit_lead. rewrite Sv.
    destruct (_ || _); [reflexivity|].
    now destruct (Regex.test emailRegex (Body.email b)) as [[]|].
  - unfold submit_lead. rewrite Sv.
    destruct (_ || _); [reflexivity|].
    now destruct (Regex.test emailRegex (Body.email b)) as [[]|].
  - intros V. now rewrite (valid_passes w _ b V), Sv.
  - unfold Stats.stats. cbn. destruct v; try reflexivity. now destruct (Hv items).
Qed.

Lemma non_array_file_blocks_intake_witness :
  let v := JObj [("leads", JArr [])] in
  let c := Stats.mkCalendar "Tue Nov 14 2023" (fun _ => "Invalid Date") in
  success (fst (submit_lead Scenario.world (FileJSON v) Scenario.body)) = false
  /\ snd (submit_lead Scenario.world (FileJSON v) Scenario.body) = FileJSON v
  /\ (valid Scenario.body = true ->
      fst (submit_lead Scenario.world (FileJSON v) Scenario.body) = internal_error)
  /\ Listing.list_leads (FileJSON v) = (200%nat, v)
  /\ Stats.stats c (FileJSON v) = (200%nat, Stats.zero).
Proof.
  intros v c.
  apply (non_array_file_blocks_intake c Scenario.world Scenario.body v).
  intros l. discriminate.
Defined.

End IntakeInvariants.

(** ** What the statistics report *)

Section StatsInvariants.
Import Stats.

Lemma is_empty_append_one (s : string) : JsString.is_empty (s ++ "1") = false.
Proof. destruct s; reflexivity. Qed.

Lemma bump_other (acc : gmap string tally) (x k : string) :
  k <> x -> bump acc x !! k = acc !! k.
Proof.
  intros Hk. unfold bump.
  destruct (acc !! x) as [[n|t]|];
    [| destruct (JsString.is_empty t) | destruct (Object_prototype x) as [[text|]|]];
    try reflexivity; now rewrite lookup_insert_ne.
Qed.

(** One step of the count, whatever the key. *)
Lemma bump_entry (acc : gmap string tally) (seen : list string) (x : string) :
  (forall k, acc !! k = Shape.entry k (occurrences k seen)) ->
  forall k, bump acc x !! k = Shape.entry k (occurrences k (seen ++ [x])).
Proof.
  intros Hacc k. rewrite occurrences_snoc.
  destruct (decide (x = k)) as [->|Hne].
  - pose proof (Hacc k) as Hk. unfold bump, Shape.entry in *.
    destruct (occurrences k seen) as [|n]; cbn [Nat.add].
    + rewrite Hk.
      destruct (Object_prototype k) as [[text|]|];
        [now rewrite lookup_insert_eq | exact Hk | now rewrite lookup_insert_eq].
    + replace (n + 1)%nat with (S n) by lia.
      destruct (Object_prototype k) as [[text|]|] eqn:P; rewrite Hk.
      * cbn [Shape.ones_after]. rewrite is_empty_append_one.
        now rewrite lookup_insert_eq.
      * first [reflexivity | exact Hk].
      * now rewrite lookup_insert_eq.
  - rewrite bump_other by congruence. rewrite Hacc.
    now rewrite Nat.add_0_r.
Qed.

Lemma reduce_entries (leads : list jsval) :
  forall (reqs : list (option string)) (acc : gmap string tally)
         (seen : list string),
    Forall2 carries leads reqs ->
    (forall k, acc !! k = Shape.entry k (occurrences k seen)) ->
    exists m, reduce acc leads = Some m
      /\ forall k, m !! k
                   = Shape.entry k (occurrences k (seen ++ (service_of <$> reqs))).
Proof.
  induction leads as [|lead rest IH]; intros reqs acc seen Hc Hacc.
  - apply Forall2_nil_inv_l in Hc as ->. exists acc. cbn.
    now rewrite app_nil_r.
  - apply Forall2_cons_inv_l in Hc as (r & reqs' & Hr & Hc & ->).
    cbn [reduce]. rewrite (carries_count_lead acc lead r Hr). cbn.
    destruct (IH reqs' (bump acc (service_of r)) (seen ++ [service_of r])%list Hc)
      as (m & Hm & Hk).
    + now apply bump_entry.
    + exists m. split; [exact Hm|]. intros k. rewrite Hk.
      now rewrite <- app_assoc.
Qed.

(** For leads whose requirement is a string or missing, whatever these
    strings are, and whose [submittedAt] is one that [new Date] takes:
    totalLeads is the number of leads; under a key that names
    no member of [Object.prototype] serviceRequests holds the number of
    leads with that service, and nothing when there is none; a number
    that is reported is always that count; and "__proto__" is never
    a key. *)
Theorem service_counts_characterised (c : calendar) (leads : list jsval)
    (reqs : list (option string)) :
  Forall2 carries leads reqs ->
  Forall dated leads ->
  exists st,
    stats c (FileJSON (JArr leads)) = (200%nat, st)
    /\ totalLeads st = length leads
    /\ (forall k, serviceRequests st !! k
                  = Shape.entry k (occurrences k (service_of <$> reqs)))
    /\ (forall k, Object_prototype k = None ->
                  serviceRequests st !! k
                  = Count <$> count_map (service_of <$> reqs) !! k)
    /\ (forall k n, serviceRequests st !! k = Some (Count n) ->
                    n = occurrences k (service_of <$> reqs) /\ n <> 0%nat)
    /\ serviceRequests st !! "__proto__" = None.
Proof.
  intros Hc Hd. unfold stats. cbn.
  destruct (filter_today_defined c leads Hd) as [kept ->].
  destruct (reduce_entries leads reqs ∅ [] Hc) as (m & -> & Hm).
  { intros k. cbn. now rewrite lookup_empty. }
  cbn [app] in Hm. cbn. eexists. split; [reflexivity|]. cbn.
  split; [reflexivity|]. split; [exact Hm|]. split; [|split].
  - intros k P. rewrite Hm, lookup_count_map. unfold Shape.entry.
    destruct (occurrences k (service_of <$> reqs));
      case_decide; try lia; [reflexivity|].
    now rewrite P.
  - intros k n. rewrite Hm. unfold Shape.entry.
    destruct (occurrences k (service_of <$> reqs)) as [|n']; [discriminate|].
    destruct (Object_prototype k) as [[text|]|]; try discriminate.
    intros [= <-]. split; [reflexivity | discriminate].
  - rewrite Hm. unfold Shape.entry.
    now destruct (occurrences "__proto__" (service_of <$> reqs)).
Qed.

Lemma service_counts_characterised_witness :
  let c := mkCalendar "Tue Nov 14 2023" (fun _ => "Invalid Date") in
  let reqs := [Some "Cloud"; Some "toString"; None; Some "Cloud"; Some "__proto__"] in
  exists st,
    stats c (FileJSON (JArr (lead_with <$> reqs))) = (200%nat, st)
    /\ totalLeads st = length (lead_with <$> reqs)
    /\ (forall k, serviceRequests st !! k
                  = Shape.entry k (occurrences k (service_of <$> reqs)))
    /\ (forall k, Object_prototype k = None ->
                  serviceRequests st !! k
                  = Count <$> count_map (service_of <$> reqs) !! k)
    /\ (forall k n, serviceRequests st !! k = Some (Count n) ->
                    n = occurrences k (service_of <$> reqs) /\ n <> 0%nat)
    /\ serviceRequests st !! "__proto__" = None.
Proof.
  intros c reqs.
  apply (service_counts_characterised c (lead_with <$> reqs) reqs).
  - repeat constructor.
  - repeat constructor;
      (eexists; split; [reflexivity | eexists; reflexivity]).
Defined.

Lemma filter_today_length (c : calendar) (leads : list jsval) :
  forall kept, filter_today c leads = Some kept ->
               (length kept <= length leads)%nat.
Proof.
  induction leads as [|lead rest IH]; cbn; intros kept H.
  - injection H as <-. reflexivity.
  - destruct (is_today c lead) as [keep|]; [|discriminate H]. cbn in H.
    destruct (filter_today c rest) as [kept'|]; [|discriminate H]. cbn in H.
    injection H as <-. specialize (IH kept' eq_refl).
    destruct keep; cbn; lia.
Qed.

(** The leads of today are never more than the leads, whatever the file
    and the calendar. *)
Theorem todayLeads_le_totalLeads (c : calendar) (f : leads_file) :
  (todayLeads (snd (stats c f)) <= totalLeads (snd (stats c f)))%nat.
Proof.
  unfold stats. destruct (read_json f) as [v|]; cbn; [|lia].
  destruct v; cbn; try lia.
  destruct (filter_today c items) as [kept|] eqn:K; cbn; [|lia].
  destruct (reduce ∅ items); cbn; [|lia].
  now apply (filter_today_length c items).
Qed.

Lemma filter_today_null (c : calendar) (leads : list jsval) :
  JNull ∈ leads -> filter_today c leads = None.
Proof.
  induction leads as [|x rest IH]; intros H.
  - now apply elem_of_nil in H.
  - apply elem_of_cons in H as [<- | H]; cbn; [reflexivity|].
    destruct (is_today c x); [|reflexivity]. cbn. now rewrite (IH H).
Qed.

(** One [null] among the records of the file makes the statistics fall
    back to the zero ones, while the listing still shows every record. *)
Theorem null_record_zeroes_stats (c : calendar) (leads : list jsval) :
  JNull ∈ leads ->
  stats c (FileJSON (JArr leads)) = (200%nat, zero)
  /\ Listing.list_leads (FileJSON (JArr leads)) = (200%nat, JArr leads).
Proof.
  intros H. split; [|reflexivity].
  unfold stats. cbn. now rewrite (filter_today_null c leads H).
Qed.

Lemma null_record_zeroes_stats_witness :
  let c := mkCalendar "Tue Nov 14 2023" (fun _ => "Invalid Date") in
  let leads := [Lead.to_json Scenario.lead; JNull] in
  stats c (FileJSON (JArr leads)) = (200%nat, zero)
  /\ Listing.list_leads (FileJSON (JArr leads)) = (200%nat, JArr leads).
Proof.
  intros c leads. apply (null_record_zeroes_stats c leads).
  apply list_elem_of_further, list_elem_of_here.
Defined.

Lemma reduce_snoc (leads : list jsval) (x : jsval) :
  forall acc, reduce acc (leads ++ [x]) = reduce acc leads ≫= (fun a => count_lead a x).
Proof.
  induction leads as [|lead rest IH]; intros acc; cbn.
  - now destruct (count_lead acc x).
  - destruct (count_lead acc lead) as [a|]; cbn; [apply IH | reflexivity].
Qed.

Lemma filter_today_snoc (c : calendar) (leads : list jsval) (x : jsval)
    (keep : bool) :
  is_today c x = Some keep ->
  filter_today c (leads ++ [x])
  = (fun kept => (kept ++ if keep then [x] else [])%list) <$> filter_today c leads.
Proof.
  intros Hx. induction leads as [|lead rest IH]; cbn.
  - rewrite Hx. cbn. now destruct keep.
  - destruct (is_today c lead) as [k|]; [|reflexivity]. cbn.
    rewrite IH. destruct (filter_today c rest) as [kept|]; [|reflexivity].
    cbn. now destruct k.
Qed.

Lemma count_stored_lead (acc : gmap string tally) (lead : Lead.t) :
  count_lead acc (Lead.to_json lead)
  = Some (bump acc (Shape.stats_key (Lead.requirement lead))).
Proof.
  unfold count_lead, Shape.stats_key. cbn.
  now destruct (Lead.requirement lead).
Qed.

Lemma is_today_stored_lead (c : calendar) (lead : Lead.t) :
  is_today c (Lead.to_json lead)
  = Some (String.eqb (today c) (toDateString c (JStr (Lead.submittedAt lead)))).
Proof. reflexivity. Qed.

(** The statistics of a file to which one stored lead is added. *)
Lemma computeStats_snoc (c : calendar) (leads : list jsval) (lead : Lead.t)
    (st : t) :
  computeStats c (JArr leads) = Some st ->
  exists st',
    computeStats c (JArr (leads ++ [Lead.to_json lead])) = Some st'
    /\ totalLeads st' = S (totalLeads st)
    /\ (todayLeads st <= todayLeads st' <= S (todayLeads st))%nat
    /\ serviceRequests st'
       = bump (serviceRequests st) (Shape.stats_key (Lead.requirement lead)).
Proof.
  cbn. intros H.
  destruct (filter_today c leads) as [kept|] eqn:K; [|discriminate H]. cbn in H.
  destruct (reduce ∅ leads) as [m|] eqn:R; [|discriminate H]. cbn in H.
  injection H as <-.
  rewrite (filter_today_snoc c leads _ _ (is_today_stored_lead c lead)), K.
  rewrite reduce_snoc, R. cbn [mbind option_bind].
  rewrite count_stored_lead. cbn.
  eexists. split; [reflexivity|]. cbn.
  rewrite !length_app. cbn.
  repeat split; try lia; destruct (String.eqb _ _); cbn; lia.
Qed.

(** When the statistics could be computed before a submission (or the
    file could not be read at all), a successful submission raises
    totalLeads by exactly one, raises todayLeads by at most one, and
    changes serviceRequests under no key but the one of the requirement
    that was stored. *)
Theorem submission_raises_totalLeads
    (c : calendar) (w : Intake.world) (f f' : leads_file) (b : Body.t)
    (r : Intake.response) :
  Intake.submit_lead w f b = (r, f') ->
  Intake.success r = true ->
  read_json f = None \/ is_Some (read_json f ≫= computeStats c) ->
  exists lead : Lead.t,
    stored_leads f' = (stored_leads f ++ [Lead.to_json lead])%list
    /\ totalLeads (snd (stats c f')) = S (totalLeads (snd (stats c f)))
    /\ (todayLeads (snd (stats c f)) <= todayLeads (snd (stats c f'))
        <= S (todayLeads (snd (stats c f))))%nat
    /\ forall k, k <> Shape.stats_key (Lead.requirement lead) ->
                 serviceRequests (snd (stats c f')) !! k
                 = serviceRequests (snd (stats c f)) !! k.
Proof.
  intros H Hs Hf.
  destruct (submit_lead_accepted w f f' b r H Hs) as (_ & lead & _ & -> & _).
  exists lead. split; [reflexivity|].
  assert (exists leads st,
            stored_leads f = leads /\ computeStats c (JArr leads) = Some st
            /\ snd (stats c f) = st) as (leads & st & El & Ec & Es).
  { destruct Hf as [Hn | [st Hst]].
    - exists [], zero. unfold stored_leads, stats. rewrite Hn. now cbn.
    - destruct (read_json f) as [v|] eqn:Ev; [|discriminate Hst]. cbn in Hst.
      destruct v; try discriminate Hst.
      exists items, st. unfold stored_leads, stats. rewrite Ev. cbn.
      cbn in Hst. rewrite Hst. now cbn. }
  rewrite El, Es.
  destruct (computeStats_snoc c leads lead st Ec) as (st' & Ec' & Ht & Hd & Hm).
  assert (snd (stats c (FileJSON (JArr (leads ++ [Lead.to_json lead])))) = st')
    as -> by (unfold stats; cbn [read_json mbind option_bind]; now rewrite Ec').
  split; [exact Ht|]. split; [exact Hd|].
  intros k Hk. rewrite Hm. now apply bump_other.
Qed.

Lemma submission_raises_totalLeads_witness :
  let c := mkCalendar "Tue Nov 14 2023" (fun _ => "Tue Nov 14 2023") in
  let f := FileJSON (JArr [Lead.to_json Scenario.lead]) in
  let b := Scenario.with_optional JUndefined (JStr "Cloud") JUndefined in
  let f' := snd (Intake.submit_lead Scenario.world f b) in
  exists lead : Lead.t,
    stored_leads f' = (stored_leads f ++ [Lead.to_json lead])%list
    /\ totalLeads (snd (stats c f')) = S (totalLeads (snd (stats c f)))
    /\ (todayLeads (snd (stats c f)) <= todayLeads (snd (stats c f'))
        <= S (todayLeads (snd (stats c f))))%nat
    /\ forall k, k <> Shape.stats_key (Lead.requirement lead) ->
                 serviceRequests (snd (stats c f')) !! k
                 = serviceRequests (snd (stats c f)) !! k.
Proof.
  intros c f b f'.
  apply (submission_raises_totalLeads c Scenario.world f f' b
           (fst (Intake.submit_lead Scenario.world f b))).
  - reflexivity.
  - reflexivity.
  - right. vm_compute. eexists. reflexivity.
Defined.

(** The two handlers name the missing requirement differently.  A lead
    submitted without a requirement into an empty store is stored with
    "General inquiry" and counted under that key; the key "General
    Inquiry" of the statistics is reached by a requirement of white space
    only, which is stored as the empty string. *)
Theorem missing_requirement_labels
    (c : calendar) (w : Intake.world) (f f' : leads_file) (b : Body.t)
    (r : Intake.response) :
  stored_leads f = [] ->
  Intake.submit_lead w f b = (r, f') ->
  Intake.success r = true ->
  exists st,
    stats c f' = (200%nat, st)
    /\ totalLeads st = 1%nat
    /\ (truthy (Body.requirement b) = false ->
        serviceRequests st = {[ "General inquiry" := Count 1 ]})
    /\ (forall q, Body.requirement b = JStr q -> q <> "" ->
                  JsString.trim q = "" ->
                  serviceRequests st = {[ "General Inquiry" := Count 1 ]}).
Proof.
  intros H0 H Hs.
  destruct (submit_lead_accepted w f f' b r H Hs) as (_ & lead & E & -> & _).
  rewrite H0.
  destruct (leadData_inv w b lead E)
    as (n & p & e & x & m & q & _ & _ & _ & _ & _ & Eq & El).
  destruct (computeStats_snoc c [] lead zero eq_refl) as (st & Ec & Ht & _ & Hm).
  exists st.
  split; [unfold stats; cbn [read_json mbind option_bind]; now rewrite Ec|].
  split; [exact Ht|].
  assert (Lead.requirement lead = q) as Rq by (now rewrite El).
  rewrite Rq in Hm. rewrite Hm.
  apply trim_or_inv in Eq. split.
  - intros Hf. destruct Eq as [[_ ->] | (q' & Eq' & Hne & _)].
    + reflexivity.
    + rewrite Eq' in Hf. apply truthy_JStr in Hne. congruence.
  - intros q' Hq' Hne Htrim. destruct Eq as [[Hf _] | (q'' & Eq'' & _ & ->)].
    + rewrite Hq' in Hf. apply truthy_JStr in Hne. congruence.
    + rewrite Hq' in Eq''. injection Eq'' as <-. rewrite Htrim. reflexivity.
Qed.

Lemma missing_requirement_labels_witness :
  let c := mkCalendar "Tue Nov 14 2023" (fun _ => "Invalid Date") in
  let f' := snd (Intake.submit_lead Scenario.world FileAbsent Scenario.body) in
  exists st,
    stats c f' = (200%nat, st)
    /\ totalLeads st = 1%nat
    /\ (truthy (Body.requirement Scenario.body) = false ->
        serviceRequests st = {[ "General inquiry" := Count 1 ]})
    /\ (forall q, Body.requirement Scenario.body = JStr q -> q <> "" ->
                  JsString.trim q = "" ->
                  serviceRequests st = {[ "General Inquiry" := Count 1 ]}).
Proof.
  intros c f'.
  apply (missing_requirement_labels c Scenario.world FileAbsent f' Scenario.body
           (fst (Intake.submit_lead Scenario.world FileAbsent Scenario.body)));
    reflexivity.
Defined.

End StatsInvariants.

(** ** What the chat relay sends and answers *)

Section ChatInvariants.
Import Chat.

Lemma prefix_append (x q : string) : String.prefix x (x ++ q) = true.
Proof.
  induction x as [|c x IH]; [now destruct q|].
  rewrite append_cons. cbn [String.prefix].
  destruct (ascii_dec c c) as [_|N]; [exact IH | now destruct N].
Qed.

Lemma includes_prefix (s x : string) :
  String.prefix x s = true -> JsString.includes s x = true.
Proof. intros H. destruct s; cbn [JsString.includes]; now rewrite H. Qed.

Lemma includes_append_r (p t x : string) :
  JsString.includes t x = true -> JsString.includes (p ++ t) x = true.
Proof.
  intros H. induction p as [|c p IH]; [exact H|].
  rewrite append_cons. cbn [JsString.includes]. rewrite IH.
  apply orb_true_r.
Qed.

Lemma systemMessage_holds_results (searchResults : string) :
  searchResults <> "" ->
  JsString.includes (systemMessage searchResults)
    ("Additional Context: " ++ searchResults) = true.
Proof.
  intros Hne. destruct searchResults as [|c r]; [contradiction|].
  unfold systemMessage. cbn [JsString.is_empty].
  do 21 apply includes_append_r.
  apply includes_prefix, prefix_append.
Qed.

(** The prompt has the section "Additional Context" exactly when
    [searchResults] is not empty, and then the section holds the results
    as they are. *)
Theorem additional_context_iff_results (searchResults : string) :
  JsString.includes (systemMessage searchResults) "Additional Context"
  = negb (JsString.is_empty searchResults)
  /\ (searchResults <> "" ->
      JsString.includes (systemMessage searchResults)
        ("Additional Context: " ++ searchResults) = true).
Proof.
  split; [|apply systemMessage_holds_results].
  destruct searchResults as [|c r]; [vm_compute; reflexivity|].
  unfold systemMessage. cbn [JsString.is_empty negb].
  do 21 apply includes_append_r.
  apply includes_prefix. vm_compute. reflexivity.
Qed.

Lemma additional_context_iff_results_witness :
  JsString.includes (systemMessage "Cloud migration takes six weeks.")
    "Additional Context"
  = negb (JsString.is_empty "Cloud migration takes six weeks.")
  /\ ("Cloud migration takes six weeks." <> "" ->
      JsString.includes (systemMessage "Cloud migration takes six weeks.")
        ("Additional Context: " ++ "Cloud migration takes six weeks.") = true).
Proof.
  apply (additional_context_iff_results "Cloud migration takes six weeks.").
Defined.

Lemma search_calls (cfg : config) (post : provider) (m : string) :
  snd (search cfg post m)
  = if configured (searchEndpoint cfg) && configured (searchKey cfg)
    then [search_call cfg m] else [].
Proof.
  unfold search. destruct (_ && _); [|reflexivity].
  now destruct (post (search_call cfg m)).
Qed.

Lemma complete_calls (cfg : config) (post : provider) (system user : string) :
  snd (complete cfg post system user) = [completion_call cfg system user].
Proof.
  unfold complete. destruct (post _) as [e|data]; [reflexivity|].
  now destruct (aiResponse data).
Qed.

(** The handler on a message that it relays. *)
Lemma chat_relay (cfg : config) (post : provider) (m : string) :
  m <> "" ->
  JsString.toLowerCase (JsString.trim m) <> "hi" ->
  chat cfg post (JStr m)
  = (fst (complete cfg post (systemMessage (fst (search cfg post m))) m),
     Shape.relay_calls cfg post m).
Proof.
  intros Hne Hhi. unfold chat, Shape.relay_calls.
  apply truthy_JStr in Hne. rewrite Hne. cbn.
  rewrite trim_toLowerCase.
  destruct (String.eqb_spec (JsString.toLowerCase (JsString.trim m)) "hi")
    as [E|_]; [contradiction|].
  rewrite <- (search_calls cfg post m).
  destruct (search cfg post m) as [results calls]. cbn [fst snd].
  rewrite <- (complete_calls cfg post (systemMessage results) m).
  now destruct (complete cfg post (systemMessage results) m).
Qed.

(** For a message that is relayed the handler makes exactly one
    completion call, last, with the message as sent, and before it one
    search call when the search is configured and none when it is not;
    which calls are made does not depend on what the providers answer. *)
Theorem relay_makes_one_call_each
    (cfg : config) (post : provider) (m : string) :
  m <> "" ->
  JsString.toLowerCase (JsString.trim m) <> "hi" ->
  let system := systemMessage (fst (search cfg post m)) in
  snd (chat cfg post (JStr m))
  = ((if configured (searchEndpoint cfg) && configured (searchKey cfg)
      then [search_call cfg m] else [])
     ++ [completion_call cfg system m])%list
  /\ (length (snd (chat cfg post (JStr m))) <= 2)%nat
  /\ (forall post' : provider,
        length (snd (chat cfg post' (JStr m)))
        = length (snd (chat cfg post (JStr m)))).
Proof.
  intros Hne Hhi system.
  assert (forall p, length (snd (chat cfg p (JStr m)))
                    = (if configured (searchEndpoint cfg)
                          && configured (searchKey cfg)
                       then 2 else 1)%nat) as L.
  { intros p. rewrite (chat_relay cfg p m Hne Hhi). cbn [snd].
    unfold Shape.relay_calls. now destruct (_ && _). }
  split; [now rewrite (chat_relay cfg post m Hne Hhi)|].
  split; [rewrite L; destruct (_ && _); lia|].
  intros post'. now rewrite !L.
Qed.

Lemma relay_makes_one_call_each_witness :
  let cfg := mkConfig (Some "https://openai") (Some "k") (Some "gpt")
               (Some "https://search") (Some "key") (Some "docs") in
  let post := fun _ : outbound => Rejected "timeout" in
  let system := systemMessage (fst (search cfg post "What do you offer?")) in
  snd (chat cfg post (JStr "What do you offer?"))
  = ((if configured (searchEndpoint cfg) && configured (searchKey cfg)
      then [search_call cfg "What do you offer?"] else [])
     ++ [completion_call cfg system "What do you offer?"])%list
  /\ (length (snd (chat cfg post (JStr "What do you offer?"))) <= 2)%nat
  /\ (forall post' : provider,
        length (snd (chat cfg post' (JStr "What do you offer?")))
        = length (snd (chat cfg post (JStr "What do you offer?")))).
Proof.
  intros cfg post.
  apply (relay_makes_one_call_each cfg post "What do you offer?"); discriminate.
Defined.

(** A request without a usable message reaches no provider: an absent or
    empty message is answered 400, and a message that is no string 500,
    both without any outbound call. *)
Theorem unusable_message_makes_no_call
    (cfg : config) (post : provider) (message : jsval) :
  (forall m, message <> JStr m) \/ message = JStr "" ->
  snd (chat cfg post message) = []
  /\ (truthy message = false ->
      fst (chat cfg post message) = (400%nat, Error "Message is required"))
  /\ (truthy message = true ->
      fst (chat cfg post message) = (500%nat, Error apology)).
Proof.
  intros [H | ->]; [|repeat split; discriminate].
  unfold chat.
  destruct message; cbn; try (now destruct (H s));
    repeat split; try discriminate; try reflexivity;
    destruct b || destruct (z =? 0); cbn; try discriminate; reflexivity.
Qed.

Lemma unusable_message_makes_no_call_witness :
  let cfg := mkConfig (Some "https://openai") (Some "k") (Some "gpt")
               (Some "https://search") (Some "key") (Some "docs") in
  let post := fun _ : outbound => Fulfilled JNull in
  snd (chat cfg post (JArr [JStr "hello"])) = []
  /\ (truthy (JArr [JStr "hello"]) = false ->
      fst (chat cfg post (JArr [JStr "hello"]))
      = (400%nat, Error "Message is required"))
  /\ (truthy (JArr [JStr "hello"]) = true ->
      fst (chat cfg post (JArr [JStr "hello"])) = (500%nat, Error apology)).
Proof.
  intros cfg post.
  apply (unusable_message_makes_no_call cfg post (JArr [JStr "hello"])).
  left. intros m. discriminate.
Defined.

(** Whatever the request and whatever the providers do, the answer is 400
    with the fixed text for a missing message (exactly when the message is
    absent or empty), 500 with the fixed apology, or 200 with a reply: no
    text of a provider's failure reaches the caller. *)
Theorem chat_answers (cfg : config) (post : provider) (message : jsval) :
  let res := fst (chat cfg post message) in
  (res = (400%nat, Error "Message is required") /\ truthy message = false)
  \/ (truthy message = true
      /\ (res = (500%nat, Error apology) \/ exists v, res = (200%nat, Reply v))).
Proof.
  cbv zeta. unfold chat.
  destruct (truthy message) eqn:T; cbn; [right; split; [reflexivity|] | now left].
  destruct message as [| | | |text| |]; try (now left).
  destruct (String.eqb _ _); [right; eauto|].
  destruct (search cfg post text) as [results calls].
  unfold complete.
  destruct (post _) as [e|data]; [now left|].
  destruct (aiResponse data) as [v|]; [right; eauto | now left].
Qed.

Lemma mapM_contents (results : list jsval) (cs : list string) :
  Forall2 Shape.has_content results cs ->
  mapM (fun result => member result "content") results = Some (JStr <$> cs).
Proof.
  induction 1 as [|result c results cs Hc _ IH]; [reflexivity|].
  cbn. rewrite Hc. cbn. cbn in IH. now rewrite IH.
Qed.

Lemma mapM_join_items (cs : list string) :
  mapM join_item (JStr <$> cs) = Some cs.
Proof.
  induction cs as [|c cs IH]; [reflexivity|].
  cbn. cbn in IH. now rewrite IH.
Qed.

(** When the configured search answers with results that each have a text
    as their content, whatever else they hold, [searchResults] is these
    contents joined by a blank line, in their order; the search call and
    then the completion call are made, the latter with the prompt built
    from these results, which holds them under "Additional Context" when
    they are not empty. *)
Theorem search_results_feed_prompt
    (cfg : config) (post : provider) (m : string) (data : jsval)
    (results : list jsval) (cs : list string) :
  m <> "" ->
  JsString.toLowerCase (JsString.trim m) <> "hi" ->
  configured (searchEndpoint cfg) && configured (searchKey cfg) = true ->
  post (search_call cfg m) = Fulfilled data ->
  member data "value" = Some (JArr results) ->
  Forall2 Shape.has_content results cs ->
  let text := JsString.join (nl ++ nl) cs in
  fst (search cfg post m) = text
  /\ snd (chat cfg post (JStr m))
     = [search_call cfg m; completion_call cfg (systemMessage text) m]
  /\ (text <> "" ->
      JsString.includes (systemMessage text) ("Additional Context: " ++ text)
      = true).
Proof.
  intros Hne Hhi Hc Hp Hv Hr text.
  assert (fst (search cfg post m) = text) as Hs.
  { unfold search. rewrite Hc, Hp. cbn [fst]. unfold search_text. rewrite Hv.
    cbn [mbind option_bind].
    destruct Hr as [|result c results cs Hrc Hr]; [reflexivity|].
    rewrite (mapM_contents (result :: results) (c :: cs))
      by (constructor; assumption).
    cbn [mbind option_bind]. rewrite mapM_join_items. reflexivity. }
  split; [exact Hs|]. split.
  - rewrite (chat_relay cfg post m Hne Hhi). cbn [snd].
    unfold Shape.relay_calls. now rewrite Hc, Hs.
  - apply systemMessage_holds_results.
Qed.

Lemma search_results_feed_prompt_witness :
  let cfg := mkConfig (Some "https://openai") (Some "k") (Some "gpt")
               (Some "https://search") (Some "key") (Some "docs") in
  let cs := ["We migrate to Azure."; "Audits take a week."] in
  let results :=
    [JObj [("@search.score", JNum 3); ("content", JStr "We migrate to Azure.")];
     JObj [("@search.score", JNum 2); ("content", JStr "Audits take a week.")]] in
  let data := JObj [("@odata.context", JStr "https://search/$metadata");
                    ("value", JArr results)] in
  let post := fun call =>
                match call with
                | Search _ _ _ _ _ => Fulfilled data
                | Completion _ _ _ _ _ => Rejected "busy"
                end in
  let text := JsString.join (nl ++ nl) cs in
  fst (search cfg post "What do you offer?") = text
  /\ snd (chat cfg post (JStr "What do you offer?"))
     = [search_call cfg "What do you offer?";
        completion_call cfg (systemMessage text) "What do you offer?"]
  /\ (text <> "" ->
      JsString.includes (systemMessage text) ("Additional Context: " ++ text)
      = true).
Proof.
  intros cfg cs results data post.
  apply (search_results_feed_prompt cfg post "What do you offer?" data
           results cs); try discriminate; try reflexivity.
  repeat constructor.
Defined.

(** A content that cannot be converted to a string makes [join] throw
    inside the [try]: the results are dropped and the prompt is the one
    without context. *)
Example unconvertible_content_drops_results :
  search_text
    (JObj [("value", JArr [JObj [("content", JStr "a")];
                           JObj [("content", JObj [("toString", JNum 1)])]])])
  = None.
Proof. reflexivity. Qed.

(** A completion that resolves without a usable choice: when [choices] is
    missing or empty the caller gets 500 with the apology; when the first
    choice has a message without [content] the caller gets 200 with no
    reply in it. *)
Theorem completion_without_choice
    (cfg : config) (post : provider) (m : string) (data : jsval) :
  m <> "" ->
  JsString.toLowerCase (JsString.trim m) <> "hi" ->
  post (completion_call cfg (systemMessage (fst (search cfg post m))) m)
  = Fulfilled data ->
  (member data "choices" = Some JUndefined \/ member data "choices" = Some (JArr []) ->
   fst (chat cfg post (JStr m)) = (500%nat, Error apology))
  /\ (forall first rest message,
        member data "choices" = Some (JArr (first :: rest)) ->
        member first "message" = Some message ->
        member message "content" = Some JUndefined ->
        fst (chat cfg post (JStr m)) = (200%nat, Reply JUndefined)).
Proof.
  intros Hne Hhi Hp. rewrite (chat_relay cfg post m Hne Hhi). cbn [fst].
  unfold complete. rewrite Hp. unfold aiResponse. split.
  - intros [-> | ->]; reflexivity.
  - intros first rest message -> Hm Hc. cbn. rewrite Hm. cbn. now rewrite Hc.
Qed.

Lemma completion_without_choice_witness :
  let cfg := mkConfig (Some "https://openai") (Some "k") (Some "gpt")
               None None None in
  fst (chat cfg (fun _ => Fulfilled (JObj [("choices", JArr [])]))
         (JStr "What do you offer?"))
  = (500%nat, Error apology)
  /\ fst (chat cfg
            (fun _ =>
               Fulfilled
                 (JObj [("choices",
                         JArr [JObj [("message",
                                      JObj [("role", JStr "assistant")])];
                               JObj [("message",
                                      JObj [("content", JStr "second")])]])]))
            (JStr "What do you offer?"))
     = (200%nat, Reply JUndefined).
Proof.
  intros cfg. split.
  - apply (completion_without_choice cfg
             (fun _ => Fulfilled (JObj [("choices", JArr [])]))
             "What do you offer?" (JObj [("choices", JArr [])]));
      [discriminate | discriminate | reflexivity |].
    right. reflexivity.
  - eapply (completion_without_choice cfg
              (fun _ =>
                 Fulfilled
                   (JObj [("choices",
                           JArr [JObj [("message",
                                        JObj [("role", JStr "assistant")])];
                                 JObj [("message",
                                        JObj [("content", JStr "second")])]])]))
              "What do you offer?");
      [discriminate | discriminate | reflexivity | reflexivity
       | reflexivity | reflexivity].
Defined.

End ChatInvariants.
